(** * The vAMM pricing core of the perpetuals SDK (math/amm.ts)

    A shallow embedding of the reserve / peg / spread / swap computations and
    the properties stated about them.

    - [BN] values (bn.js big integers) are [Z]; [BN.div] truncates toward zero
      ([Z.quot]) and throws on a zero divisor; [toNumber] throws from 2^53 on.
    - JavaScript [number]s are IEEE-754 binary64 values: the kernel's
      primitive floats, so that [/], [*], [+] and the comparisons round as the
      program's do.
    - A thrown exception is [None]. *)

From Stdlib Require Import ZArith Lia Bool.
From Stdlib Require Import Floats.

#[local] Set Warnings "-inexact-float".
#[local] Open Scope Z_scope.

(** ** Exceptions *)

Module Throws.

Definition bind {A B} (m : option A) (k : A -> option B) : option B :=
  match m with
  | Some a => k a
  | None => None
  end.

(** [assert(cond)] of assert/assert: throws when the condition is false. *)
Definition assert (cond : bool) : option unit :=
  if cond then Some tt else None.

End Throws.

Notation "x <- m ;; k" := (Throws.bind m (fun x => k))
  (at level 61, m at next level, right associativity).
Notation "' pat <- m ;; k" := (Throws.bind m (fun x => match x with pat => k end))
  (at level 61, pat pattern, m at next level, right associativity).

(** ** bn.js integers and JavaScript numbers *)

Definition BN := Z.
Definition number := float.

Module BNOps.

(** [a.div(b)]: truncated division; bn.js asserts that [b] is not zero. *)
Definition div (a b : BN) : option BN :=
  if b =? 0 then None else Some (Z.quot a b).

(** The image of an integer below 2^53 in absolute value, which binary64
    holds exactly. *)
Definition number_of_Z (z : Z) : number :=
  let m := PrimFloat.of_uint63 (Uint63.of_Z (Z.abs z)) in
  if z <? 0 then PrimFloat.opp m else m.

(** [a.toNumber()]: bn.js asserts that the value fits 53 bits. *)
Definition toNumber (a : BN) : option number :=
  if Z.abs a <? 2 ^ 53 then Some (number_of_Z a) else None.

(** The integer part of a finite number, rounded toward zero. *)
Definition trunc (x : number) : option Z :=
  match Prim2SF x with
  | S754_zero _ => Some 0
  | S754_finite s m e =>
      let v := if 0 <=? e then Z.shiftl (Z.pos m) e
               else Z.shiftr (Z.pos m) (- e) in
      Some (if s then - v else v)
  | S754_infinity _ | S754_nan => None
  end.

(** [new BN(x)] for a number [x]: the words are cut out of [x] with [&], so
    the fraction is dropped; bn.js asserts [|x| < 2^53] (which also rejects
    NaN and the infinities). *)
Definition ofNumber (x : number) : option BN :=
  v <- trunc x ;;
  if Z.abs v <? 2 ^ 53 then Some v else None.

End BNOps.

(** [Math.max] and [Math.min]: NaN when either argument is NaN, and [+0]
    above [-0]. *)
Definition Math_max (a b : number) : number :=
  if is_nan a || is_nan b then nan
  else if PrimFloat.ltb a b then b
  else if PrimFloat.ltb b a then a
  else if get_sign a then b else a.

Definition Math_min (a b : number) : number :=
  if is_nan a || is_nan b then nan
  else if PrimFloat.ltb a b then a
  else if PrimFloat.ltb b a then b
  else if get_sign a then a else b.

(** ** constants/numericConstants

    The module of precision constants is imported by math/amm.ts; the
    development is parametric in its values and only uses that each of them
    is positive and that the spread precision is a safe integer (the program
    converts it with [toNumber]). *)

Class NumericConstants := {
  PEG_PRECISION : BN;
  MARK_PRICE_PRECISION : BN;
  BID_ASK_SPREAD_PRECISION : BN;
  QUOTE_PRECISION : BN;
  AMM_TO_QUOTE_PRECISION_RATIO : BN;
  AMM_TIMES_PEG_TO_QUOTE_PRECISION_RATIO : BN;
  PEG_PRECISION_pos : 0 < PEG_PRECISION;
  MARK_PRICE_PRECISION_pos : 0 < MARK_PRICE_PRECISION;
  BID_ASK_SPREAD_PRECISION_pos : 0 < BID_ASK_SPREAD_PRECISION;
  QUOTE_PRECISION_pos : 0 < QUOTE_PRECISION;
  AMM_TO_QUOTE_PRECISION_RATIO_pos : 0 < AMM_TO_QUOTE_PRECISION_RATIO;
  AMM_TIMES_PEG_TO_QUOTE_PRECISION_RATIO_pos :
    0 < AMM_TIMES_PEG_TO_QUOTE_PRECISION_RATIO;
  BID_ASK_SPREAD_PRECISION_safe : BID_ASK_SPREAD_PRECISION < 2 ^ 53
}.

Definition ZERO : BN := 0.
Definition ONE : BN := 1.

(** ** types *)

Inductive PositionDirection := LONG | SHORT.
Inductive SwapDirection := ADD | REMOVE.
Inductive AssetType := quote | base.

Record AMM := mkAMM {
  baseAssetReserve : BN;
  quoteAssetReserve : BN;
  sqrtK : BN;
  pegMultiplier : BN;
  netBaseAssetAmount : BN;
  terminalQuoteAssetReserve : BN;
  totalExchangeFee : BN;
  totalFeeMinusDistributions : BN;
  baseSpread : number;
  curveUpdateIntensity : number;
  quoteAssetAmountLong : BN;
  quoteAssetAmountShort : BN
}.

Record OraclePriceData := mkOracle {
  price : BN;
  confidence : BN
}.

(** Field updates of a copied state ([Object.assign({}, amm)] followed by
    assignments; every [BN] operation returns a fresh value, so the copy
    shares nothing that is later written). *)
Definition with_baseAssetReserve (v : BN) (a : AMM) : AMM :=
  mkAMM v (quoteAssetReserve a) (sqrtK a) (pegMultiplier a)
    (netBaseAssetAmount a) (terminalQuoteAssetReserve a)
    (totalExchangeFee a) (totalFeeMinusDistributions a) (baseSpread a)
    (curveUpdateIntensity a) (quoteAssetAmountLong a)
    (quoteAssetAmountShort a).

Definition with_quoteAssetReserve (v : BN) (a : AMM) : AMM :=
  mkAMM (baseAssetReserve a) v (sqrtK a) (pegMultiplier a)
    (netBaseAssetAmount a) (terminalQuoteAssetReserve a)
    (totalExchangeFee a) (totalFeeMinusDistributions a) (baseSpread a)
    (curveUpdateIntensity a) (quoteAssetAmountLong a)
    (quoteAssetAmountShort a).

Definition with_sqrtK (v : BN) (a : AMM) : AMM :=
  mkAMM (baseAssetReserve a) (quoteAssetReserve a) v (pegMultiplier a)
    (netBaseAssetAmount a) (terminalQuoteAssetReserve a)
    (totalExchangeFee a) (totalFeeMinusDistributions a) (baseSpread a)
    (curveUpdateIntensity a) (quoteAssetAmountLong a)
    (quoteAssetAmountShort a).

Definition with_pegMultiplier (v : BN) (a : AMM) : AMM :=
  mkAMM (baseAssetReserve a) (quoteAssetReserve a) (sqrtK a) v
    (netBaseAssetAmount a) (terminalQuoteAssetReserve a)
    (totalExchangeFee a) (totalFeeMinusDistributions a) (baseSpread a)
    (curveUpdateIntensity a) (quoteAssetAmountLong a)
    (quoteAssetAmountShort a).

Definition with_terminalQuoteAssetReserve (v : BN) (a : AMM) : AMM :=
  mkAMM (baseAssetReserve a) (quoteAssetReserve a) (sqrtK a)
    (pegMultiplier a) (netBaseAssetAmount a) v
    (totalExchangeFee a) (totalFeeMinusDistributions a) (baseSpread a)
    (curveUpdateIntensity a) (quoteAssetAmountLong a)
    (quoteAssetAmountShort a).

Definition with_totalFeeMinusDistributions (v : BN) (a : AMM) : AMM :=
  mkAMM (baseAssetReserve a) (quoteAssetReserve a) (sqrtK a)
    (pegMultiplier a) (netBaseAssetAmount a) (terminalQuoteAssetReserve a)
    (totalExchangeFee a) v (baseSpread a)
    (curveUpdateIntensity a) (quoteAssetAmountLong a)
    (quoteAssetAmountShort a).

(** ** math/repeg

    [calculateRepegCost], [calculateAdjustKCost] and [calculateBudgetedPeg]
    are imported from ./repeg and used as opaque functions; each may throw. *)

Class RepegPrimitives := {
  calculateRepegCost : AMM -> BN -> option BN;
  calculateAdjustKCost : AMM -> BN -> BN -> option BN;
  calculateBudgetedPeg : AMM -> BN -> BN -> option BN
}.

(** Modelled from the spec: [squareRootBN] is imported from the package
    root; section 4.8 of the specification gives its
    result as the floor of the square root. *)
Definition squareRootBN (n : BN) : BN := Z.sqrt n.

(** ** math/amm *)

Section Amm.

Context {C : NumericConstants} {R : RepegPrimitives}.

(** [calculatePrice]: the guard tests [baseAssetReserves.abs() <= 0], that
    is, a reserve equal to zero. *)
Definition calculatePrice (baseAssetReserves quoteAssetReserves
                           pegMultiplier : BN) : option BN :=
  if Z.abs baseAssetReserves <=? ZERO then Some 0
  else
    q <- BNOps.div (quoteAssetReserves * MARK_PRICE_PRECISION * pegMultiplier)
           PEG_PRECISION ;;
    BNOps.div q baseAssetReserves.

(** The input reserve after a swap (the first half of
    [calculateSwapOutput]). *)
Definition newInputAssetReserve (inputAssetReserve swapAmount : BN)
    (swapDirection : SwapDirection) : BN :=
  match swapDirection with
  | ADD => inputAssetReserve + swapAmount
  | REMOVE => inputAssetReserve - swapAmount
  end.

(** [calculateSwapOutput]. *)
Definition calculateSwapOutput (inputAssetReserve swapAmount : BN)
    (swapDirection : SwapDirection) (invariant : BN) : option (BN * BN) :=
  let newInputAssetReserve :=
    newInputAssetReserve inputAssetReserve swapAmount swapDirection in
  newOutputAssetReserve <- BNOps.div invariant newInputAssetReserve ;;
  Some (newInputAssetReserve, newOutputAssetReserve).

(** [getSwapDirection]. *)
Definition getSwapDirection (inputAssetType : AssetType)
    (positionDirection : PositionDirection) : SwapDirection :=
  match positionDirection, inputAssetType with
  | LONG, base => REMOVE
  | SHORT, quote => REMOVE
  | _, _ => ADD
  end.

(** [calculateAmmReservesAfterSwap]: returns the quote reserve first. *)
Definition calculateAmmReservesAfterSwap (amm : AMM)
    (inputAssetType : AssetType) (swapAmount : BN)
    (swapDirection : SwapDirection) : option (BN * BN) :=
  _ <- Throws.assert (ZERO <=? swapAmount) ;;
  match inputAssetType with
  | quote =>
      swapAmount' <- BNOps.div
        (swapAmount * AMM_TIMES_PEG_TO_QUOTE_PRECISION_RATIO)
        (pegMultiplier amm) ;;
      '(newQuoteAssetReserve, newBaseAssetReserve) <-
        calculateSwapOutput (quoteAssetReserve amm) swapAmount'
          swapDirection (sqrtK amm * sqrtK amm) ;;
      Some (newQuoteAssetReserve, newBaseAssetReserve)
  | base =>
      '(newBaseAssetReserve, newQuoteAssetReserve) <-
        calculateSwapOutput (baseAssetReserve amm) swapAmount
          swapDirection (sqrtK amm * sqrtK amm) ;;
      Some (newQuoteAssetReserve, newBaseAssetReserve)
  end.

(** The direction in which the net position of the pool is closed. *)
Definition directionToClose (amm : AMM) : PositionDirection :=
  if netBaseAssetAmount amm >? ZERO then SHORT else LONG.

(** The fee budget of a repeg: [BN.max(ZERO, totalFeeMinusDistributions -
    totalExchangeFee / 2)]. *)
Definition budget (amm : AMM) : BN :=
  Z.max ZERO (totalFeeMinusDistributions amm - Z.quot (totalExchangeFee amm) 2).

(** The first value of [newPeg] in [calculateNewAmm]: the oracle price
    scaled by the reserves, rounded to the nearest peg unit. *)
Definition targetPeg (amm : AMM) (oraclePriceData : OraclePriceData)
    : option BN :=
  let targetPrice := price oraclePriceData in
  p <- BNOps.div (targetPrice * baseAssetReserve amm) (quoteAssetReserve amm) ;;
  unit <- BNOps.div MARK_PRICE_PRECISION PEG_PRECISION ;;
  half <- BNOps.div unit 2 ;;
  BNOps.div (p + half) unit.

(** The copy of the state with [baseAssetReserve] and [sqrtK] scaled by
    [pKNumer / pKDenom] and the quote reserve rebuilt from the invariant. *)
Definition scaleK (amm : AMM) (pKNumer pKDenom : BN) : option AMM :=
  b <- BNOps.div (baseAssetReserve amm * pKNumer) pKDenom ;;
  let newAmm := with_baseAssetReserve b amm in
  k <- BNOps.div (sqrtK newAmm * pKNumer) pKDenom ;;
  let newAmm := with_sqrtK k newAmm in
  let invariant := sqrtK newAmm * sqrtK newAmm in
  q <- BNOps.div invariant (baseAssetReserve newAmm) ;;
  Some (with_quoteAssetReserve q newAmm).

(** [calculateNewAmm]: [(prePegCost, pKNumer, pKDenom, newPeg)]. *)
Definition calculateNewAmm (amm : AMM) (oraclePriceData : OraclePriceData)
    : option (BN * BN * BN * BN) :=
  let targetPrice := price oraclePriceData in
  newPeg <- targetPeg amm oraclePriceData ;;
  prePegCost <- calculateRepegCost amm newPeg ;;
  let budget := budget amm in
  if prePegCost >? budget then
    let pKNumer := 999 in
    let pKDenom := 1000 in
    deficitMadeup <- calculateAdjustKCost amm pKNumer pKDenom ;;
    _ <- Throws.assert (deficitMadeup <=? 0) ;;
    let prePegCost := budget + Z.abs deficitMadeup in
    newAmm <- scaleK amm pKNumer pKDenom ;;
    '(newQuoteAssetReserve, _) <-
      calculateAmmReservesAfterSwap newAmm base
        (Z.abs (netBaseAssetAmount amm))
        (getSwapDirection base (directionToClose amm)) ;;
    let newAmm := with_terminalQuoteAssetReserve newQuoteAssetReserve newAmm in
    newPeg <- calculateBudgetedPeg newAmm prePegCost targetPrice ;;
    prePegCost <- calculateRepegCost newAmm newPeg ;;
    Some (prePegCost, pKNumer, pKDenom, newPeg)
  else
    Some (prePegCost, 1, 1, newPeg).

(** [calculateUpdatedAMM]. *)
Definition calculateUpdatedAMM (amm : AMM) (oraclePriceData : OraclePriceData)
    : option AMM :=
  if (curveUpdateIntensity amm =? 0)%float then Some amm
  else
    '(prepegCost, pKNumer, pKDenom, newPeg) <-
      calculateNewAmm amm oraclePriceData ;;
    newAmm <- scaleK amm pKNumer pKDenom ;;
    let newAmm := with_pegMultiplier newPeg newAmm in
    '(newQuoteAssetReserve, _) <-
      calculateAmmReservesAfterSwap newAmm base
        (Z.abs (netBaseAssetAmount amm))
        (getSwapDirection base (directionToClose amm)) ;;
    let newAmm := with_terminalQuoteAssetReserve newQuoteAssetReserve newAmm in
    Some (with_totalFeeMinusDistributions
            (totalFeeMinusDistributions newAmm - prepegCost) newAmm).

(** ** Spreads *)

Definition MAX_INVENTORY_SKEW : number := 5%float.

(** [BID_ASK_SPREAD_PRECISION.toNumber() / 50], the 2% target. *)
Definition maxTargetSpread : option number :=
  p <- BNOps.toNumber BID_ASK_SPREAD_PRECISION ;;
  Some (p / 50)%float.

(** The cap on the skew factor shared by both spread functions:
    [if (spreadScale * spread > maxTargetSpread)
       spreadScale = Math.max(1.05, maxTargetSpread / spread)]. *)
Definition capScale (maxTargetSpread spreadScale spread : number) : number :=
  if (maxTargetSpread <? spreadScale * spread)%float
  then Math_max 1.05%float (maxTargetSpread / spread)%float
  else spreadScale.

(** The value of the pool's net position at the terminal reserves and at the
    mark price. *)
Definition netBaseAssetValue (quoteAssetReserve terminalQuoteAssetReserve
                              pegMultiplier : BN) : option BN :=
  BNOps.div ((quoteAssetReserve - terminalQuoteAssetReserve) * pegMultiplier)
    AMM_TIMES_PEG_TO_QUOTE_PRECISION_RATIO.

Definition localBaseAssetValue (netBaseAssetAmount markPrice : BN)
    : option BN :=
  BNOps.div (netBaseAssetAmount * markPrice)
    (AMM_TO_QUOTE_PRECISION_RATIO * MARK_PRICE_PRECISION).

(** *** calculateSpreadBN *)

(** Lines 252-265: the base half-spread of both sides and the oracle retreat
    of one of them; the result is [(longSpread, shortSpread)]. *)
Definition oracleRetreatBN (baseSpread : number)
    (lastOracleMarkSpreadPct lastOracleConfPct : BN)
    : option (number * number) :=
  let longSpread := (baseSpread / 2)%float in
  let shortSpread := (baseSpread / 2)%float in
  if lastOracleMarkSpreadPct >? ZERO then
    p <- BNOps.toNumber (Z.abs lastOracleMarkSpreadPct) ;;
    c <- BNOps.toNumber lastOracleConfPct ;;
    Some (longSpread, Math_max shortSpread (p + c)%float)
  else if lastOracleMarkSpreadPct <? ZERO then
    p <- BNOps.toNumber (Z.abs lastOracleMarkSpreadPct) ;;
    c <- BNOps.toNumber lastOracleConfPct ;;
    Some (Math_max longSpread (p + c)%float, shortSpread)
  else Some (longSpread, shortSpread).

(** Lines 269-314: the inventory skew applied to the two half-spreads. *)
Definition inventorySkewBN (quoteAssetReserve terminalQuoteAssetReserve
    pegMultiplier netBaseAssetAmount markPrice totalFeeMinusDistributions : BN)
    (longSpread shortSpread : number) : option (number * number) :=
  netValue <- netBaseAssetValue quoteAssetReserve terminalQuoteAssetReserve
                pegMultiplier ;;
  localValue <- localBaseAssetValue netBaseAssetAmount markPrice ;;
  maxTargetSpread <- maxTargetSpread ;;
  if totalFeeMinusDistributions >? ZERO then
    d <- BNOps.toNumber (localValue - netValue) ;;
    f <- BNOps.toNumber totalFeeMinusDistributions ;;
    q <- BNOps.toNumber QUOTE_PRECISION ;;
    let effectiveLeverage := (d / (f + 1) + 1 / q)%float in
    let spreadScale :=
      Math_min MAX_INVENTORY_SKEW (1 + effectiveLeverage)%float in
    if netBaseAssetAmount >? ZERO then
      let spreadScale := capScale maxTargetSpread spreadScale longSpread in
      Some ((longSpread * spreadScale)%float, shortSpread)
    else
      let spreadScale := capScale maxTargetSpread spreadScale shortSpread in
      Some (longSpread, (shortSpread * spreadScale)%float)
  else
    Some ((longSpread * MAX_INVENTORY_SKEW)%float,
          (shortSpread * MAX_INVENTORY_SKEW)%float).

(** [calculateSpreadBN]: [(longSpread, shortSpread)]. *)
Definition calculateSpreadBN (baseSpread : number)
    (lastOracleMarkSpreadPct lastOracleConfPct quoteAssetReserve
     terminalQuoteAssetReserve pegMultiplier netBaseAssetAmount markPrice
     totalFeeMinusDistributions : BN) : option (number * number) :=
  '(longSpread, shortSpread) <-
    oracleRetreatBN baseSpread lastOracleMarkSpreadPct lastOracleConfPct ;;
  inventorySkewBN quoteAssetReserve terminalQuoteAssetReserve pegMultiplier
    netBaseAssetAmount markPrice totalFeeMinusDistributions
    longSpread shortSpread.

(** *** calculateSpread *)

Definition isLong (direction : PositionDirection) : bool :=
  match direction with LONG => true | SHORT => false end.

Definition isShort (direction : PositionDirection) : bool :=
  match direction with LONG => false | SHORT => true end.

(** The mark price of the state. *)
Definition markPriceOf (amm : AMM) : option BN :=
  calculatePrice (baseAssetReserve amm) (quoteAssetReserve amm)
    (pegMultiplier amm).

(** [oraclePriceData?.price || markPrice]: a [BN] is an object, hence truthy
    whatever its value, so the mark price is taken only when the oracle data
    (or its price) is missing. *)
Definition targetPriceOf (oraclePriceData : option OraclePriceData)
    (markPrice : BN) : BN :=
  match oraclePriceData with
  | Some o => price o
  | None => markPrice
  end.

(** [targetMarkSpreadPct]: the distance of the mark price to the target, in
    spread units. *)
Definition targetMarkSpreadPct (markPrice targetPrice : BN) : option BN :=
  BNOps.div ((markPrice - targetPrice) * BID_ASK_SPREAD_PRECISION) markPrice.

(** Lines 343-349: the oracle retreat of the quoted side. *)
Definition oracleRetreat (direction : PositionDirection)
    (targetMarkSpreadPct : BN) (spread : number) : option number :=
  if (isLong direction && (targetMarkSpreadPct <? ZERO))
     || (isShort direction && (targetMarkSpreadPct >? ZERO))
  then
    p <- BNOps.toNumber (Z.abs targetMarkSpreadPct) ;;
    Some (Math_max spread p)
  else Some spread.

(** Lines 351-389: the inventory skew of the quoted side. *)
Definition inventorySkew (amm : AMM) (direction : PositionDirection)
    (markPrice : BN) (spread : number) : option number :=
  if ((netBaseAssetAmount amm >? ZERO) && isLong direction)
     || ((netBaseAssetAmount amm <? ZERO) && isShort direction)
     || (totalFeeMinusDistributions amm =? ZERO)
  then
    let netCostBasis := quoteAssetAmountLong amm - quoteAssetAmountShort amm in
    netValue <- netBaseAssetValue (quoteAssetReserve amm)
                  (terminalQuoteAssetReserve amm) (pegMultiplier amm) ;;
    localValue <- localBaseAssetValue (netBaseAssetAmount amm) markPrice ;;
    let netPnl := netValue - netCostBasis in
    let localPnl := localValue - netCostBasis in
    effectiveLeverage <-
      (if totalFeeMinusDistributions amm >? ZERO then
         d <- BNOps.toNumber (localPnl - netPnl) ;;
         f <- BNOps.toNumber (totalFeeMinusDistributions amm) ;;
         Some (d / (f + 1))%float
       else Some MAX_INVENTORY_SKEW) ;;
    let spreadScale :=
      Math_min MAX_INVENTORY_SKEW (1 + effectiveLeverage)%float in
    maxTargetSpread <- maxTargetSpread ;;
    let spreadScale := capScale maxTargetSpread spreadScale spread in
    Some (spread * spreadScale)%float
  else Some spread.

(** The mark price and the half-spread after the base spread and the oracle
    retreat, before the inventory skew (lines 328-349). *)
Definition spreadBeforeSkew (amm : AMM) (direction : PositionDirection)
    (oraclePriceData : option OraclePriceData) : option (BN * number) :=
  markPrice <- markPriceOf amm ;;
  let targetPrice := targetPriceOf oraclePriceData markPrice in
  pct <- targetMarkSpreadPct markPrice targetPrice ;;
  spread <- oracleRetreat direction pct (baseSpread amm / 2)%float ;;
  Some (markPrice, spread).

(** [calculateSpread]. *)
Definition calculateSpread (amm : AMM) (direction : PositionDirection)
    (oraclePriceData : option OraclePriceData) : option number :=
  let spread := (baseSpread amm / 2)%float in
  if (baseSpread amm =? 0)%float || (curveUpdateIntensity amm =? 0)%float
  then Some spread
  else
    '(markPrice, spread) <- spreadBeforeSkew amm direction oraclePriceData ;;
    inventorySkew amm direction markPrice spread.

(** [calculateSpreadReserves]: [(baseAssetReserve, quoteAssetReserve)] of the
    quoted side. *)
Definition calculateSpreadReserves (amm : AMM) (direction : PositionDirection)
    (oraclePriceData : option OraclePriceData) : option (BN * BN) :=
  spread <- calculateSpread amm direction oraclePriceData ;;
  if (spread =? 0)%float
  then Some (baseAssetReserve amm, quoteAssetReserve amm)
  else
    half <- BNOps.ofNumber (spread / 2)%float ;;
    ratio <- BNOps.div BID_ASK_SPREAD_PRECISION half ;;
    quoteAsserReserveDelta <- BNOps.div (quoteAssetReserve amm) ratio ;;
    let quoteAssetReserve :=
      match direction with
      | LONG => quoteAssetReserve amm + quoteAsserReserveDelta
      | SHORT => quoteAssetReserve amm - quoteAsserReserveDelta
      end in
    baseAssetReserve <- BNOps.div (sqrtK amm * sqrtK amm) quoteAssetReserve ;;
    Some (baseAssetReserve, quoteAssetReserve).

(** [calculateUpdatedAMMSpreadReserves]:
    [(baseAssetReserve, quoteAssetReserve, sqrtK, newPeg)]. *)
Definition calculateUpdatedAMMSpreadReserves (amm : AMM)
    (direction : PositionDirection) (oraclePriceData : OraclePriceData)
    : option (BN * BN * BN * BN) :=
  newAmm <- calculateUpdatedAMM amm oraclePriceData ;;
  '(baseAssetReserve, quoteAssetReserve) <-
    calculateSpreadReserves newAmm direction (Some oraclePriceData) ;;
  Some (baseAssetReserve, quoteAssetReserve, sqrtK newAmm,
        pegMultiplier newAmm).

(** [calculateBidAskPrice]: [(bidPrice, askPrice)]. *)
Definition calculateBidAskPrice (amm : AMM) (oraclePriceData : OraclePriceData)
    : option (BN * BN) :=
  newAmm <- calculateUpdatedAMM amm oraclePriceData ;;
  '(askBase, askQuote) <-
    calculateSpreadReserves newAmm LONG (Some oraclePriceData) ;;
  '(bidBase, bidQuote) <-
    calculateSpreadReserves newAmm SHORT (Some oraclePriceData) ;;
  askPrice <- calculatePrice askBase askQuote (pegMultiplier newAmm) ;;
  bidPrice <- calculatePrice bidBase bidQuote (pegMultiplier newAmm) ;;
  Some (bidPrice, askPrice).

(** [calculateTerminalPrice], on the [amm] of a market account. *)
Definition calculateTerminalPrice (amm : AMM) : option BN :=
  '(newQuoteAssetReserve, newBaseAssetReserve) <-
    calculateAmmReservesAfterSwap amm base (Z.abs (netBaseAssetAmount amm))
      (getSwapDirection base (directionToClose amm)) ;;
  q <- BNOps.div
         (newQuoteAssetReserve * MARK_PRICE_PRECISION * pegMultiplier amm)
         PEG_PRECISION ;;
  BNOps.div q newBaseAssetReserve.

(** [calculateQuoteAssetAmountSwapped]. *)
Definition calculateQuoteAssetAmountSwapped (quoteAssetReserves
    pegMultiplier : BN) (swapDirection : SwapDirection) : option BN :=
  quoteAssetAmount <- BNOps.div (quoteAssetReserves * pegMultiplier)
                        AMM_TIMES_PEG_TO_QUOTE_PRECISION_RATIO ;;
  match swapDirection with
  | REMOVE => Some (quoteAssetAmount + ONE)
  | ADD => Some quoteAssetAmount
  end.

(** [calculateMaxBaseAssetAmountToTrade]. *)
Definition calculateMaxBaseAssetAmountToTrade (amm : AMM) (limit_price : BN)
    (direction : PositionDirection)
    (oraclePriceData : option OraclePriceData)
    : option (BN * PositionDirection) :=
  let invariant := sqrtK amm * sqrtK amm in
  q <- BNOps.div (invariant * MARK_PRICE_PRECISION * pegMultiplier amm)
         limit_price ;;
  newBaseAssetReserveSquared <- BNOps.div q PEG_PRECISION ;;
  let newBaseAssetReserve := squareRootBN newBaseAssetReserveSquared in
  '(baseAssetReserveBefore, _) <-
    calculateSpreadReserves amm direction oraclePriceData ;;
  if newBaseAssetReserve >? baseAssetReserveBefore then
    Some (newBaseAssetReserve - baseAssetReserveBefore, SHORT)
  else if newBaseAssetReserve <? baseAssetReserveBefore then
    Some (baseAssetReserveBefore - newBaseAssetReserve, LONG)
  else
    Some (0, LONG).

End Amm.

(** ** Concrete constants

    The precisions of the deployed protocol (powers of ten), used for the
    concrete runs below; the general statements hold for every instance of
    [NumericConstants]. *)

#[local, refine] Instance ProtocolConstants : NumericConstants := {|
  PEG_PRECISION := 10 ^ 3;
  MARK_PRICE_PRECISION := 10 ^ 10;
  BID_ASK_SPREAD_PRECISION := 10 ^ 6;
  QUOTE_PRECISION := 10 ^ 6;
  AMM_TO_QUOTE_PRECISION_RATIO := 10 ^ 7;
  AMM_TIMES_PEG_TO_QUOTE_PRECISION_RATIO := 10 ^ 10 |}.
Proof. all: reflexivity. Defined.

(** Repeg primitives for concrete runs: a repeg that costs the distance of
    the pegs, a depth change that frees nothing, and a budgeted peg equal to
    the current one. *)
#[local] Instance SamplePrimitives : RepegPrimitives := {|
  calculateRepegCost := fun amm newPeg => Some (newPeg - pegMultiplier amm);
  calculateAdjustKCost := fun _ _ _ => Some 0;
  calculateBudgetedPeg := fun amm _ _ => Some (pegMultiplier amm) |}.

(** ** Sample states

    [balanced]: equal reserves at a peg of one, no position, one unit of
    retained fees.  [zeroFees]: the same pool with a 1% base spread and no
    retained fees.  [netLong]: a pool holding a net long position of 10^7
    base units; its quote reserve is [sqrtK^2 / baseAssetReserve] and its
    terminal quote reserve is the one obtained by closing the position. *)

Definition balanced : AMM :=
  mkAMM (10 ^ 13) (10 ^ 13) (10 ^ 13) 1000 0 (10 ^ 13)
        2 1 1000%float 100%float 0 0.

Definition zeroFees : AMM :=
  mkAMM (10 ^ 13) (10 ^ 13) (10 ^ 13) 1000 0 (10 ^ 13)
        0 0 10000%float 100%float 0 0.

Definition netLong : AMM :=
  mkAMM (10 ^ 16) (10 ^ 16 - 10 ^ 8) (10 ^ 16 - 5 * 10 ^ 7) 1000
        (10 ^ 7) (10 ^ 16 - 11 * 10 ^ 7)
        2 1 1000%float 100%float 0 0.

Definition oracleAtMark : OraclePriceData := mkOracle (10 ^ 10) 0.
Definition oracleAtZero : OraclePriceData := mkOracle 0 0.
Definition oracleAbove : OraclePriceData := mkOracle 10100000000 0.

(** Repeg primitives whose depth change costs one unit instead of freeing
    fees; [calculateNewAmm] asserts against them. *)
Definition costlyDepth : RepegPrimitives := {|
  calculateRepegCost := fun amm newPeg => Some (newPeg - pegMultiplier amm);
  calculateAdjustKCost := fun _ _ _ => Some 1;
  calculateBudgetedPeg := fun amm _ _ => Some (pegMultiplier amm) |}.

(** [balanced] with the update switched off and a base spread of 2, and
    with no base spread at all. *)
Definition thinSpread : AMM :=
  mkAMM (10 ^ 13) (10 ^ 13) (10 ^ 13) 1000 0 (10 ^ 13)
        2 1 2%float 0%float 0 0.

Definition noSpread : AMM :=
  mkAMM (10 ^ 13) (10 ^ 13) (10 ^ 13) 1000 0 (10 ^ 13)
        2 1 0%float 100%float 0 0.


(** * Properties *)

(** ** Division *)

Lemma div_Some (a b : BN) : b <> 0 -> BNOps.div a b = Some (Z.quot a b).
Proof.
  intros Hb. unfold BNOps.div.
  destruct (Z.eqb_spec b 0) as [E | _]; [contradiction | reflexivity].
Qed.

Lemma div_inv (a b c : BN) :
  BNOps.div a b = Some c -> b <> 0 /\ c = Z.quot a b.
Proof.
  unfold BNOps.div. destruct (Z.eqb_spec b 0) as [E | N]; [discriminate |].
  intros [= <-]. split; [assumption | reflexivity].
Qed.

Lemma bind_inv {A B} (m : option A) (k : A -> option B) (b : B) :
  Throws.bind m k = Some b -> exists a, m = Some a /\ k a = Some b.
Proof.
  destruct m as [a |]; simpl; [| discriminate].
  intros H. exists a. split; [reflexivity | assumption].
Qed.

(** Truncated and floor division agree on a non-negative dividend and a
    positive divisor. *)
Lemma quot_floor (a b : Z) : 0 <= a -> 0 < b -> Z.quot a b = a / b.
Proof. intros Ha Hb. apply Z.quot_div_nonneg; assumption. Qed.

(** The floor quotient is within one unit of the exact one. *)
Lemma floor_slack (a b : Z) : 0 < b -> b * (a / b) <= a < b * (a / b + 1).
Proof.
  intros Hb.
  pose proof (Z.div_mod a b ltac:(lia)) as E.
  pose proof (Z.mod_pos_bound a b Hb) as M.
  lia.
Qed.

Section PriceEngine.

Context {C : NumericConstants} {R : RepegPrimitives}.

(** ** Price engine *)

(** C2: [calculatePrice] returns 0 exactly when the base reserve is 0; for
    every other base reserve, negative ones included, it returns
    quote * MARK_PRICE_PRECISION * peg / PEG_PRECISION / base with both
    divisions truncated toward zero, which for a positive base reserve and a
    non-negative quote * peg is the floor of
    quote * MARK_PRICE_PRECISION * peg / (PEG_PRECISION * base). *)
Theorem calculatePrice_spec (b q p : BN) :
  (b = 0 -> calculatePrice b q p = Some 0) /\
  (b <> 0 ->
   calculatePrice b q p =
   Some (Z.quot (Z.quot (q * MARK_PRICE_PRECISION * p) PEG_PRECISION) b)) /\
  (0 < b -> 0 <= q * p ->
   calculatePrice b q p =
   Some ((q * MARK_PRICE_PRECISION * p) / (PEG_PRECISION * b))).
Proof.
  pose proof PEG_PRECISION_pos as HP.
  pose proof MARK_PRICE_PRECISION_pos as HM.
  assert (Hgen : b <> 0 ->
    calculatePrice b q p =
    Some (Z.quot (Z.quot (q * MARK_PRICE_PRECISION * p) PEG_PRECISION) b)).
  { intros Hb. unfold calculatePrice, ZERO.
    destruct (Z.leb_spec (Z.abs b) 0) as [L | _]; [lia |].
    rewrite div_Some by lia. simpl. apply div_Some. assumption. }
  split; [| split].
  - intros ->. reflexivity.
  - exact Hgen.
  - intros Hb Hqp. rewrite Hgen by lia. f_equal.
    assert (0 <= q * MARK_PRICE_PRECISION * p) by nia.
    rewrite (quot_floor (q * MARK_PRICE_PRECISION * p)) by lia.
    rewrite quot_floor.
    + rewrite Z.div_div by lia. reflexivity.
    + apply Z.div_pos; lia.
    + assumption.
Qed.

End PriceEngine.

Lemma calculatePrice_spec_witness :
  calculatePrice 4 3 1000 = Some 7500000000 /\
  calculatePrice 4 3 1000 = Some ((3 * 10 ^ 10 * 1000) / (10 ^ 3 * 4)).
Proof.
  destruct (calculatePrice_spec (C := ProtocolConstants) 4 3 1000)
    as (_ & Hq & Hf).
  split.
  - rewrite Hq by lia. reflexivity.
  - apply Hf; lia.
Defined.

(** Counterexample to C2 as stated: a negative base reserve is not answered
    with 0; and with a negative quote reserve the truncated quotient is one
    above the floor. *)
Lemma calculatePrice_negative_base :
  -1 <= 0 /\
  calculatePrice (-1) 1 1000 = Some (-10000000000) /\
  calculatePrice (-1) 1 1000 <> Some 0 /\
  calculatePrice 3 (-1) 1000 = Some (-3333333333) /\
  (-1 * 10 ^ 10 * 1000) / (10 ^ 3 * 3) = -3333333334.
Proof.
  split; [lia |].
  split; [reflexivity |].
  split; [discriminate |].
  split; reflexivity.
Qed.

(** ** Swap simulator *)

Lemma calculateSwapOutput_value (i a : BN) (d : SwapDirection) (k : BN) :
  newInputAssetReserve i a d <> 0 ->
  calculateSwapOutput i a d k =
  Some (newInputAssetReserve i a d, Z.quot k (newInputAssetReserve i a d)).
Proof.
  intros Hn. unfold calculateSwapOutput.
  rewrite div_Some by assumption. reflexivity.
Qed.

(** For an invariant of either sign the product misses the invariant by
    less than one unit of the output reserve; it lies below the invariant
    when the invariant is not negative and above it otherwise. *)
Lemma calculateSwapOutput_slack_signed (i a : BN) (d : SwapDirection)
    (k : BN) :
  0 < newInputAssetReserve i a d ->
  exists newOutput,
    calculateSwapOutput i a d k = Some (newInputAssetReserve i a d, newOutput)
    /\ Z.abs (k - newInputAssetReserve i a d * newOutput)
       < newInputAssetReserve i a d.
Proof.
  intros Hn. exists (Z.quot k (newInputAssetReserve i a d)).
  split; [apply calculateSwapOutput_value; lia |].
  pose proof (Z.quot_rem' k (newInputAssetReserve i a d)) as E.
  pose proof (Z.rem_bound_abs k (newInputAssetReserve i a d) ltac:(lia)) as B.
  lia.
Qed.

Lemma getSwapDirection_cases :
  getSwapDirection base LONG = REMOVE /\
  getSwapDirection quote SHORT = REMOVE /\
  getSwapDirection base SHORT = ADD /\
  getSwapDirection quote LONG = ADD.
Proof. repeat split. Qed.

(** C6: for an invariant that is not negative (it is [sqrtK * sqrtK] at
    every call) and a positive new input reserve, [calculateSwapOutput]
    returns the new input reserve and an output reserve whose product with
    it is at most the invariant and misses it by less than one unit of the
    output reserve. *)
Theorem calculateSwapOutput_slack (i a : BN) (d : SwapDirection) (k : BN) :
  0 <= a -> 0 <= k -> 0 < newInputAssetReserve i a d ->
  exists newOutput,
    calculateSwapOutput i a d k = Some (newInputAssetReserve i a d, newOutput)
    /\ newInputAssetReserve i a d * newOutput <= k
    /\ k < newInputAssetReserve i a d * (newOutput + 1).
Proof.
  intros _ Hk Hn. exists (Z.quot k (newInputAssetReserve i a d)).
  split; [apply calculateSwapOutput_value; lia |].
  rewrite quot_floor by assumption.
  apply floor_slack. assumption.
Qed.

Lemma calculateSwapOutput_slack_witness :
  calculateSwapOutput 7 3 ADD 105 = Some (10, 10) /\
  10 * 10 <= 105 < 10 * (10 + 1).
Proof.
  destruct (calculateSwapOutput_slack 7 3 ADD 105) as (o & E & H1 & H2);
    [lia | lia | simpl; lia |].
  split; [reflexivity | lia].
Defined.

(** The round trip restores the input reserve and rebuilds the output
    reserve from the invariant. *)
Lemma swap_round_trip_value (i a k : BN) :
  i <> 0 -> i + a <> 0 ->
  calculateSwapOutput i a ADD k = Some (i + a, Z.quot k (i + a)) /\
  calculateSwapOutput (i + a) a REMOVE k = Some (i, Z.quot k i).
Proof.
  intros Hi Hia. split.
  - apply (calculateSwapOutput_value i a ADD k). assumption.
  - rewrite (calculateSwapOutput_value (i + a) a REMOVE k);
      unfold newInputAssetReserve; replace (i + a - a) with i by lia;
      [reflexivity | assumption].
Qed.

(** An output reserve that was itself within the floor slack of the
    invariant is restored exactly by the round trip. *)
Lemma swap_round_trip_restores_floor (i a k o : BN) :
  0 <= a -> 0 <= k -> 0 < i -> i * o <= k < i * (o + 1) ->
  calculateSwapOutput (i + a) a REMOVE k = Some (i, o).
Proof.
  intros Ha Hk Hi Ho.
  destruct (swap_round_trip_value i a k) as [_ ->]; [lia | lia |].
  rewrite quot_floor by lia.
  pose proof (floor_slack k i Hi) as F.
  do 2 f_equal. nia.
Qed.

(** C7: adding [a] to the input reserve and then removing [a] again, under
    one non-negative invariant, restores the input reserve exactly and
    returns the output reserve [invariant / inputReserve], each leg within
    the floor slack of the invariant.  Starting reserves [(i, o)] are
    therefore restored with exact equality if and only if [o] is that floor
    quotient, [i * o <= invariant < i * (o + 1)]; from any other starting
    output reserve the round trip lands on the floor quotient, however far
    from [o] that is. *)
Theorem swap_round_trip_exact (i a k : BN) :
  0 <= a -> 0 <= k -> 0 < i ->
  calculateSwapOutput i a ADD k = Some (i + a, Z.quot k (i + a)) /\
  (i + a) * Z.quot k (i + a) <= k < (i + a) * (Z.quot k (i + a) + 1) /\
  calculateSwapOutput (i + a) a REMOVE k = Some (i, Z.quot k i) /\
  forall o : BN,
    calculateSwapOutput (i + a) a REMOVE k = Some (i, o)
    <-> i * o <= k < i * (o + 1).
Proof.
  intros Ha Hk Hi.
  destruct (swap_round_trip_value i a k) as [E1 E2]; [lia | lia |].
  split; [exact E1 |].
  split; [rewrite quot_floor by lia; apply floor_slack; lia |].
  split; [exact E2 |].
  intros o. split.
  - rewrite E2. intros [= <-].
    rewrite quot_floor by lia. apply floor_slack. assumption.
  - intros Ho. apply swap_round_trip_restores_floor; assumption.
Qed.

Lemma swap_round_trip_exact_witness :
  calculateSwapOutput 7 3 ADD 106 = Some (10, 10) /\
  calculateSwapOutput 10 3 REMOVE 106 = Some (7, 15) /\
  (calculateSwapOutput 10 3 REMOVE 106 = Some (7, 15)
   <-> 7 * 15 <= 106 < 7 * (15 + 1)).
Proof.
  destruct (swap_round_trip_exact 7 3 106) as (E1 & _ & E2 & Hiff);
    [lia | lia | lia |].
  split; [exact E1 |]. split; [exact E2 |]. exact (Hiff 15).
Defined.

(** Counterexample to C7 as stated.  The starting reserves (7, 15) under
    the invariant 106 are restored with exact equality.  And the reserves
    (34, 2) that [calculateSwapOutput] itself produces under the invariant
    100, taken from their other side (input reserve 2, output reserve 34),
    come back as (2, 50): 16 units from the start, not within one. *)
Lemma swap_round_trip_refuted :
  7 * 15 <= 106 < 7 * (15 + 1) /\
  calculateSwapOutput 7 3 ADD 106 = Some (10, 10) /\
  calculateSwapOutput 10 3 REMOVE 106 = Some (7, 15) /\
  calculateSwapOutput 30 4 ADD 100 = Some (34, 2) /\
  calculateSwapOutput 2 4 ADD 100 = Some (6, 16) /\
  calculateSwapOutput 6 4 REMOVE 100 = Some (2, 50) /\
  Z.abs (50 - 34) = 16.
Proof. repeat split; try reflexivity; lia. Qed.

(** ** Repeg decision *)

Ltac inv_bind H :=
  let x := fresh "x" in
  let E := fresh "E" in
  apply bind_inv in H; destruct H as (x & E & H).

Section Repeg.

Context {C : NumericConstants} {R : RepegPrimitives}.

(** The candidate peg is the oracle price scaled by the reserves, plus half
    a peg unit, divided by the peg unit. *)
Lemma targetPeg_value (amm : AMM) (o : OraclePriceData) :
  quoteAssetReserve amm <> 0 ->
  Z.quot MARK_PRICE_PRECISION PEG_PRECISION <> 0 ->
  let unit := Z.quot MARK_PRICE_PRECISION PEG_PRECISION in
  targetPeg amm o =
  Some (Z.quot (Z.quot (price o * baseAssetReserve amm) (quoteAssetReserve amm)
                + Z.quot unit 2) unit).
Proof.
  intros Hq Hu unit. unfold targetPeg.
  pose proof PEG_PRECISION_pos.
  repeat (rewrite div_Some by (assumption || lia); simpl).
  reflexivity.
Qed.

(** C4: when the cost of moving to the candidate peg is within the budget
    max(0, totalFeeMinusDistributions - totalExchangeFee / 2),
    [calculateNewAmm] returns that cost, the ratio 1 / 1 and the candidate
    peg itself. *)
Theorem calculateNewAmm_within_budget (amm : AMM) (o : OraclePriceData)
    (peg cost : BN) :
  targetPeg amm o = Some peg ->
  calculateRepegCost amm peg = Some cost ->
  cost <= Z.max 0 (totalFeeMinusDistributions amm
                   - Z.quot (totalExchangeFee amm) 2) ->
  calculateNewAmm amm o = Some (cost, 1, 1, peg).
Proof.
  intros Hp Hc Hb. unfold calculateNewAmm.
  rewrite Hp. simpl. rewrite Hc. simpl.
  unfold budget, ZERO.
  destruct (Z.gtb_spec cost
              (Z.max 0 (totalFeeMinusDistributions amm
                        - Z.quot (totalExchangeFee amm) 2))) as [G | _];
    [lia | reflexivity].
Qed.

(** The depth ratio returned by [calculateNewAmm] is 1/1 or 999/1000. *)
Lemma calculateNewAmm_ratio (amm : AMM) (o : OraclePriceData)
    (cost n d peg : BN) :
  calculateNewAmm amm o = Some (cost, n, d, peg) ->
  (n = 1 /\ d = 1) \/ (n = 999 /\ d = 1000).
Proof.
  unfold calculateNewAmm. intros H.
  inv_bind H. inv_bind H.
  destruct (x0 >? budget amm).
  - inv_bind H. inv_bind H. inv_bind H. inv_bind H.
    destruct x4 as [nq nb]. inv_bind H. inv_bind H.
    injection H as <- <- <- <-. right. split; reflexivity.
  - injection H as <- <- <- <-. left. split; reflexivity.
Qed.

(** What [scaleK] leaves: both reserves' scaled values and a quote reserve
    rebuilt from the invariant. *)
Lemma scaleK_inv (amm amm' : AMM) (n d : BN) :
  scaleK amm n d = Some amm' ->
  baseAssetReserve amm' = Z.quot (baseAssetReserve amm * n) d /\
  sqrtK amm' = Z.quot (sqrtK amm * n) d /\
  baseAssetReserve amm' <> 0 /\
  quoteAssetReserve amm' =
    Z.quot (sqrtK amm' * sqrtK amm') (baseAssetReserve amm').
Proof.
  unfold scaleK. intros H.
  inv_bind H. inv_bind H. inv_bind H.
  injection H as <-. simpl in *.
  apply div_inv in E as [_ ->].
  apply div_inv in E0 as [_ ->].
  apply div_inv in E1 as [Hb ->].
  repeat split; try reflexivity. exact Hb.
Qed.

(** ** State update *)

(** With the repeg inside the budget and reserves that can be divided by,
    [calculateUpdatedAMM] returns a state: the reserves' depth is kept, the
    peg is the candidate peg and the cost is taken from the retained fees. *)
Lemma calculateUpdatedAMM_returns (amm : AMM) (o : OraclePriceData)
    (peg cost : BN) :
  (curveUpdateIntensity amm =? 0)%float = false ->
  targetPeg amm o = Some peg ->
  calculateRepegCost amm peg = Some cost ->
  cost <= budget amm ->
  baseAssetReserve amm <> 0 ->
  newInputAssetReserve (baseAssetReserve amm) (Z.abs (netBaseAssetAmount amm))
    (getSwapDirection base (directionToClose amm)) <> 0 ->
  exists amm',
    calculateUpdatedAMM amm o = Some amm' /\
    baseAssetReserve amm' = baseAssetReserve amm /\
    sqrtK amm' = sqrtK amm /\
    pegMultiplier amm' = peg /\
    totalFeeMinusDistributions amm' = totalFeeMinusDistributions amm - cost.
Proof.
  intros Hcui Hp Hc Hb Hbase Hclose.
  unfold calculateUpdatedAMM. rewrite Hcui.
  rewrite (calculateNewAmm_within_budget amm o peg cost Hp Hc Hb). simpl.
  unfold scaleK. simpl.
  rewrite ?Z.mul_1_r, ?Z.quot_1_r.
  rewrite div_Some by assumption. simpl.
  unfold calculateAmmReservesAfterSwap. simpl.
  destruct (Z.leb_spec ZERO (Z.abs (netBaseAssetAmount amm))) as [_ | L];
    [| unfold ZERO in L; lia].
  simpl. rewrite calculateSwapOutput_value by assumption. simpl.
  eexists. split; [reflexivity |]. simpl. repeat split; reflexivity.
Qed.


End Repeg.

(** A run of the depth-adjusting path: the oracle 1% above the mark asks for
    a peg the budget does not cover, both the base reserve and [sqrtK] are
    scaled by 999/1000 and the quote reserve is rebuilt from them. *)
Example calculateUpdatedAMM_shrinks :
  calculateNewAmm netLong oracleAbove = Some (0, 999, 1000, 1000) /\
  exists amm',
    calculateUpdatedAMM netLong oracleAbove = Some amm' /\
    baseAssetReserve amm' = 9990000000000000 /\
    sqrtK amm' = 9989999950050000 /\
    quoteAssetReserve amm' = sqrtK amm' * sqrtK amm' / baseAssetReserve amm'.
Proof.
  split; [vm_compute; reflexivity |].
  eexists. split; [vm_compute; reflexivity |].
  repeat split; vm_compute; reflexivity.
Qed.

Lemma calculateNewAmm_within_budget_witness :
  calculateNewAmm balanced oracleAtMark = Some (0, 1, 1, 1000).
Proof.
  apply (calculateNewAmm_within_budget (C := ProtocolConstants)
           (R := SamplePrimitives) balanced oracleAtMark 1000 0);
    [reflexivity | reflexivity | vm_compute; discriminate].
Defined.


(** ** Spreads *)

Section Spreads.

Context {C : NumericConstants}.

Lemma toNumber_safe (z : BN) :
  Z.abs z < 2 ^ 53 -> BNOps.toNumber z = Some (BNOps.number_of_Z z).
Proof.
  intros Hz. unfold BNOps.toNumber.
  destruct (Z.ltb_spec (Z.abs z) (2 ^ 53)) as [_ | G]; [reflexivity | lia].
Qed.

Lemma maxTargetSpread_value :
  maxTargetSpread =
  Some (BNOps.number_of_Z BID_ASK_SPREAD_PRECISION / 50)%float.
Proof.
  unfold maxTargetSpread.
  pose proof BID_ASK_SPREAD_PRECISION_pos.
  pose proof BID_ASK_SPREAD_PRECISION_safe.
  rewrite toNumber_safe by lia. reflexivity.
Qed.

Lemma netBaseAssetValue_value (q tq p : BN) :
  netBaseAssetValue q tq p =
  Some (Z.quot ((q - tq) * p) AMM_TIMES_PEG_TO_QUOTE_PRECISION_RATIO).
Proof.
  unfold netBaseAssetValue.
  pose proof AMM_TIMES_PEG_TO_QUOTE_PRECISION_RATIO_pos.
  apply div_Some. lia.
Qed.

Lemma localBaseAssetValue_value (n m : BN) :
  localBaseAssetValue n m =
  Some (Z.quot (n * m) (AMM_TO_QUOTE_PRECISION_RATIO * MARK_PRICE_PRECISION)).
Proof.
  unfold localBaseAssetValue.
  pose proof AMM_TO_QUOTE_PRECISION_RATIO_pos.
  pose proof MARK_PRICE_PRECISION_pos.
  apply div_Some. nia.
Qed.

(** Without retained fees the skew factor starts from its maximum. *)
Lemma skew_at_max :
  Math_min MAX_INVENTORY_SKEW (1 + MAX_INVENTORY_SKEW)%float
  = MAX_INVENTORY_SKEW.
Proof. reflexivity. Qed.

(** The inventory skew of [calculateSpread] on a pool without retained
    fees: the maximal factor, capped. *)
Lemma inventorySkew_zero_fees (amm : AMM) (direction : PositionDirection)
    (m : BN) (pre : number) :
  totalFeeMinusDistributions amm = 0 ->
  inventorySkew amm direction m pre =
  Some (pre * capScale (BNOps.number_of_Z BID_ASK_SPREAD_PRECISION / 50)
                MAX_INVENTORY_SKEW pre)%float.
Proof.
  intros Hf. unfold inventorySkew. rewrite Hf.
  change (0 =? ZERO) with true. rewrite orb_true_r.
  change (0 >? ZERO) with false.
  rewrite netBaseAssetValue_value, localBaseAssetValue_value,
    maxTargetSpread_value.
  cbn [Throws.bind]. rewrite skew_at_max. reflexivity.
Qed.

(** With a zero base spread or a zero update intensity the half-spread is
    [baseSpread / 2], whatever the oracle says. *)
Lemma calculateSpread_disabled (amm : AMM) (direction : PositionDirection)
    (o : option OraclePriceData) :
  ((baseSpread amm =? 0) || (curveUpdateIntensity amm =? 0))%float = true ->
  calculateSpread amm direction o = Some (baseSpread amm / 2)%float.
Proof. intros H. unfold calculateSpread. rewrite H. reflexivity. Qed.


(** C3: on a pool without retained fees, [calculateSpreadBN] returns both
    half-spreads at exactly 5 times their value before the skew;
    [calculateSpread] returns 5 times the value before the skew only while
    that product does not exceed the target BID_ASK_SPREAD_PRECISION / 50,
    and otherwise the value before the skew times
    max(1.05, target / value). *)
Theorem zero_fees_skew :
  (forall (amm : AMM) (direction : PositionDirection)
          (o : option OraclePriceData) (m : BN) (pre : number),
     (baseSpread amm =? 0)%float = false ->
     (curveUpdateIntensity amm =? 0)%float = false ->
     totalFeeMinusDistributions amm = 0 ->
     spreadBeforeSkew amm direction o = Some (m, pre) ->
     let target := (BNOps.number_of_Z BID_ASK_SPREAD_PRECISION / 50)%float in
     ((target <? 5 * pre)%float = false ->
      calculateSpread amm direction o = Some (pre * 5)%float) /\
     ((target <? 5 * pre)%float = true ->
      calculateSpread amm direction o =
      Some (pre * Math_max 1.05 (target / pre))%float)) /\
  (forall (baseSpread : number)
          (pct conf q tq peg nba mark : BN) (long short : number),
     oracleRetreatBN baseSpread pct conf = Some (long, short) ->
     calculateSpreadBN baseSpread pct conf q tq peg nba mark 0 =
     Some (long * 5, short * 5)%float).
Proof.
  split.
  - intros amm direction o m pre Hbs Hcui Hf Hpre target.
    assert (E : calculateSpread amm direction o =
                Some (pre * capScale target MAX_INVENTORY_SKEW pre)%float).
    { unfold calculateSpread. rewrite Hbs, Hcui, Hpre. simpl.
      apply inventorySkew_zero_fees. assumption. }
    rewrite E. unfold capScale, MAX_INVENTORY_SKEW.
    split; intros ->; reflexivity.
  - intros bs pct conf q tq peg nba mark long short Hpre.
    unfold calculateSpreadBN. rewrite Hpre. simpl.
    unfold inventorySkewBN.
    rewrite netBaseAssetValue_value, localBaseAssetValue_value. simpl.
    rewrite maxTargetSpread_value. simpl. reflexivity.
Qed.

(** C9: when no oracle data is passed, the target is the mark price, the
    distance to it is 0, neither side retreats, and the half-spread is the
    inventory skew of [baseSpread / 2]. *)
Theorem calculateSpread_absent_oracle (amm : AMM)
    (direction : PositionDirection) (m : BN) :
  (baseSpread amm =? 0)%float = false ->
  (curveUpdateIntensity amm =? 0)%float = false ->
  markPriceOf amm = Some m -> m <> 0 ->
  targetPriceOf None m = m /\
  targetMarkSpreadPct m (targetPriceOf None m) = Some 0 /\
  spreadBeforeSkew amm direction None = Some (m, (baseSpread amm / 2)%float) /\
  calculateSpread amm direction None =
  inventorySkew amm direction m (baseSpread amm / 2)%float.
Proof.
  intros Hbs Hcui Hm Hnz.
  assert (Hpct : targetMarkSpreadPct m (targetPriceOf None m) = Some 0).
  { unfold targetMarkSpreadPct, targetPriceOf.
    rewrite div_Some by assumption.
    rewrite Z.sub_diag, Z.mul_0_l, Z.quot_0_l by assumption. reflexivity. }
  assert (Hpre : spreadBeforeSkew amm direction None
                 = Some (m, (baseSpread amm / 2)%float)).
  { unfold spreadBeforeSkew. rewrite Hm. cbn [Throws.bind].
    rewrite Hpct. cbn [Throws.bind].
    unfold oracleRetreat. rewrite !andb_false_r. reflexivity. }
  repeat split; try assumption.
  unfold calculateSpread. rewrite Hbs, Hcui, Hpre. reflexivity.
Qed.

(** C10: in [calculateSpreadBN] the oracle retreat widens one side only,
    by the distance to the oracle plus its confidence: the short side when
    [lastOracleMarkSpreadPct] is positive, the long side when it is
    negative, neither when it is 0; the other side stays at
    [baseSpread / 2]. *)
Theorem calculateSpreadBN_oracle_retreat (baseSpread : number)
    (pct conf q tq peg nba mark fees : BN) :
  let half := (baseSpread / 2)%float in
  let widened :=
    Math_max half (BNOps.number_of_Z (Z.abs pct) + BNOps.number_of_Z conf)%float in
  (0 < pct -> Z.abs pct < 2 ^ 53 -> Z.abs conf < 2 ^ 53 ->
   oracleRetreatBN baseSpread pct conf = Some (half, widened) /\
   calculateSpreadBN baseSpread pct conf q tq peg nba mark fees =
   inventorySkewBN q tq peg nba mark fees half widened) /\
  (pct < 0 -> Z.abs pct < 2 ^ 53 -> Z.abs conf < 2 ^ 53 ->
   oracleRetreatBN baseSpread pct conf = Some (widened, half) /\
   calculateSpreadBN baseSpread pct conf q tq peg nba mark fees =
   inventorySkewBN q tq peg nba mark fees widened half) /\
  (pct = 0 ->
   oracleRetreatBN baseSpread pct conf = Some (half, half) /\
   calculateSpreadBN baseSpread pct conf q tq peg nba mark fees =
   inventorySkewBN q tq peg nba mark fees half half).
Proof.
  intros half widened.
  assert (Hs : forall l s, oracleRetreatBN baseSpread pct conf = Some (l, s) ->
               calculateSpreadBN baseSpread pct conf q tq peg nba mark fees =
               inventorySkewBN q tq peg nba mark fees l s).
  { intros l s E. unfold calculateSpreadBN. rewrite E. reflexivity. }
  assert (Hp : 0 < pct -> Z.abs pct < 2 ^ 53 -> Z.abs conf < 2 ^ 53 ->
               oracleRetreatBN baseSpread pct conf = Some (half, widened)).
  { intros Hpos Hb1 Hb2. unfold oracleRetreatBN, ZERO.
    destruct (Z.gtb_spec pct 0) as [_ | L]; [| lia].
    rewrite !toNumber_safe by lia.
    reflexivity. }
  assert (Hn : pct < 0 -> Z.abs pct < 2 ^ 53 -> Z.abs conf < 2 ^ 53 ->
               oracleRetreatBN baseSpread pct conf = Some (widened, half)).
  { intros Hneg Hb1 Hb2. unfold oracleRetreatBN, ZERO.
    destruct (Z.gtb_spec pct 0) as [G | _]; [lia |].
    destruct (Z.ltb_spec pct 0) as [_ | G]; [| lia].
    rewrite !toNumber_safe by lia.
    reflexivity. }
  assert (Hz : pct = 0 ->
               oracleRetreatBN baseSpread pct conf = Some (half, half)).
  { intros ->. reflexivity. }
  split; [| split].
  - intros H1 H2 H3. split; [| apply Hs]; apply Hp; assumption.
  - intros H1 H2 H3. split; [| apply Hs]; apply Hn; assumption.
  - intros H1. split; [| apply Hs]; apply Hz; assumption.
Qed.

(** ** Trade sizing *)

Lemma squareRootBN_floor (x : BN) :
  0 <= x ->
  squareRootBN x * squareRootBN x <= x
  < (squareRootBN x + 1) * (squareRootBN x + 1).
Proof.
  intros Hx. unfold squareRootBN.
  pose proof (Z.sqrt_spec x Hx) as S. unfold Z.succ in S. lia.
Qed.

(** C8: with n the integer square root of
    invariant * MARK_PRICE_PRECISION * peg / limit_price / PEG_PRECISION and
    b the base reserve of the quoted side, the result is (n - b, SHORT) when
    n > b, (b - n, LONG) when n < b and (0, LONG) when n = b. *)
Theorem calculateMaxBaseAssetAmountToTrade_cases (amm : AMM)
    (limit_price : BN) (direction : PositionDirection)
    (o : option OraclePriceData) (b q : BN) :
  limit_price <> 0 ->
  calculateSpreadReserves amm direction o = Some (b, q) ->
  let n :=
    squareRootBN
      (Z.quot (Z.quot (sqrtK amm * sqrtK amm * MARK_PRICE_PRECISION
                       * pegMultiplier amm) limit_price) PEG_PRECISION) in
  (b < n ->
   calculateMaxBaseAssetAmountToTrade amm limit_price direction o
   = Some (n - b, SHORT)) /\
  (n < b ->
   calculateMaxBaseAssetAmountToTrade amm limit_price direction o
   = Some (b - n, LONG)) /\
  (n = b ->
   calculateMaxBaseAssetAmountToTrade amm limit_price direction o
   = Some (0, LONG)).
Proof.
  intros Hl Hr n.
  assert (E : calculateMaxBaseAssetAmountToTrade amm limit_price direction o =
              if n >? b then Some (n - b, SHORT)
              else if n <? b then Some (b - n, LONG)
              else Some (0, LONG)).
  { unfold calculateMaxBaseAssetAmountToTrade.
    pose proof PEG_PRECISION_pos.
    rewrite div_Some by assumption. simpl.
    rewrite div_Some by lia. simpl.
    rewrite Hr. reflexivity. }
  rewrite E.
  destruct (Z.gtb_spec n b), (Z.ltb_spec n b);
    repeat split; intros; try lia; reflexivity.
Qed.

End Spreads.

(** *** Concrete runs *)

(** C1: on [netLong], quoted LONG with the oracle 1% above the mark, the
    oracle retreat raises the half-spread to |targetMarkSpreadPct| = 10000;
    the inventory skew then applies the factor 1 + (0 - 1) / (1 + 1) = 0.5
    and [calculateSpread] returns 5000, below the retreat. *)
Theorem calculateSpread_retreat_scaled_down :
  markPriceOf netLong = Some 9999999900 /\
  targetMarkSpreadPct 9999999900 (price oracleAbove) = Some (-10000) /\
  spreadBeforeSkew netLong LONG (Some oracleAbove)
  = Some (9999999900, 10000%float) /\
  netBaseAssetValue (quoteAssetReserve netLong)
    (terminalQuoteAssetReserve netLong) (pegMultiplier netLong) = Some 1 /\
  localBaseAssetValue (netBaseAssetAmount netLong) 9999999900 = Some 0 /\
  calculateSpread netLong LONG (Some oracleAbove) = Some 5000%float /\
  (5000 <? 10000)%float = true.
Proof. repeat split; vm_compute; reflexivity. Qed.

(** [netLong] is a state [calculateUpdatedAMM] and the swap simulator
    produce: its quote reserve is rebuilt from the invariant and its
    terminal quote reserve is the one after closing the position. *)
Example netLong_consistent :
  BNOps.div (sqrtK netLong * sqrtK netLong) (baseAssetReserve netLong)
  = Some (quoteAssetReserve netLong) /\
  calculateAmmReservesAfterSwap netLong base
    (Z.abs (netBaseAssetAmount netLong))
    (getSwapDirection base (directionToClose netLong))
  = Some (terminalQuoteAssetReserve netLong, 10 ^ 16 + 10 ^ 7).
Proof. split; vm_compute; reflexivity. Qed.

(** Counterexample to C3 as stated, for [calculateSpread]: on [zeroFees] the value
    before the skew is 5000, 5 times it exceeds the target 20000, and the
    function returns 20000 for both directions, not 25000. *)
Lemma zero_fees_skew_capped :
  totalFeeMinusDistributions zeroFees = 0 /\
  spreadBeforeSkew zeroFees LONG (Some oracleAtMark)
  = Some (10000000000, 5000%float) /\
  spreadBeforeSkew zeroFees SHORT (Some oracleAtMark)
  = Some (10000000000, 5000%float) /\
  calculateSpread zeroFees LONG (Some oracleAtMark) = Some 20000%float /\
  calculateSpread zeroFees SHORT (Some oracleAtMark) = Some 20000%float /\
  (5000 * 5)%float = 25000%float /\
  (20000 =? 25000)%float = false.
Proof. repeat split; vm_compute; reflexivity. Qed.

Lemma zero_fees_skew_witness :
  calculateSpread zeroFees LONG (Some oracleAtMark)
  = Some (5000 * Math_max 1.05 (BNOps.number_of_Z (10 ^ 6) / 50 / 5000))%float
  /\ calculateSpreadBN 10000%float 0 0 (10 ^ 13) (10 ^ 13) 1000 0 (10 ^ 10) 0
     = Some (5000 * 5, 5000 * 5)%float.
Proof.
  destruct (zero_fees_skew (C := ProtocolConstants)) as [Hs Hbn].
  split.
  - apply (Hs zeroFees LONG (Some oracleAtMark) 10000000000 5000%float);
      reflexivity.
  - apply (Hbn 10000%float 0 0 (10 ^ 13) (10 ^ 13) 1000 0 (10 ^ 10)
               5000%float 5000%float).
    reflexivity.
Defined.

(** Counterexample to C9 as stated, for an oracle price of 0: the price is
    a [BN] object, so [||] keeps it; the distance to the target is the whole
    spread precision and the short side retreats to it, where the skew of
    the base half-spread alone gives 500. *)
Lemma calculateSpread_zero_oracle_price :
  price oracleAtZero = 0 /\
  markPriceOf balanced = Some 10000000000 /\
  targetPriceOf (Some oracleAtZero) 10000000000 = 0 /\
  targetMarkSpreadPct 10000000000 0 = Some 1000000 /\
  calculateSpread balanced SHORT (Some oracleAtZero) = Some 1000000%float /\
  inventorySkew balanced SHORT 10000000000 (baseSpread balanced / 2)%float
  = Some 500%float.
Proof. repeat split; vm_compute; reflexivity. Qed.

Lemma calculateSpread_absent_oracle_witness :
  calculateSpread balanced SHORT None
  = inventorySkew balanced SHORT 10000000000 (baseSpread balanced / 2)%float.
Proof.
  apply (calculateSpread_absent_oracle (C := ProtocolConstants)
           balanced SHORT 10000000000);
    [reflexivity | reflexivity | reflexivity | discriminate].
Defined.

Lemma calculateSpreadBN_oracle_retreat_witness :
  oracleRetreatBN 1000%float 2500 300 = Some (500, 2800)%float /\
  oracleRetreatBN 1000%float (-2500) 300 = Some (2800, 500)%float /\
  oracleRetreatBN 1000%float 0 300 = Some (500, 500)%float.
Proof.
  destruct (calculateSpreadBN_oracle_retreat (C := ProtocolConstants)
              1000%float 2500 300 0 0 0 0 0 0) as (Hp & _ & _).
  destruct (calculateSpreadBN_oracle_retreat (C := ProtocolConstants)
              1000%float (-2500) 300 0 0 0 0 0 0) as (_ & Hn & _).
  destruct (calculateSpreadBN_oracle_retreat (C := ProtocolConstants)
              1000%float 0 300 0 0 0 0 0 0) as (_ & _ & Hz).
  split; [| split].
  - apply Hp; reflexivity.
  - apply Hn; reflexivity.
  - apply Hz; reflexivity.
Defined.

Lemma calculateMaxBaseAssetAmountToTrade_cases_witness :
  calculateSpreadReserves balanced LONG None
  = Some (9997500624843, 10002500000000) /\
  calculateMaxBaseAssetAmountToTrade balanced (10 ^ 10 + 10 ^ 8) LONG None
  = Some (9997500624843 - 9950371902099, LONG).
Proof.
  split; [reflexivity |].
  apply (calculateMaxBaseAssetAmountToTrade_cases (C := ProtocolConstants)
           balanced (10 ^ 10 + 10 ^ 8) LONG None
           9997500624843 10002500000000);
    [discriminate | reflexivity | reflexivity].
Defined.

(** * Further properties of the swap simulator *)

Section SwapSimulator.

Context {C : NumericConstants}.

Lemma calculateSwapOutput_zero (i a : BN) (d : SwapDirection) (k : BN) :
  newInputAssetReserve i a d = 0 -> calculateSwapOutput i a d k = None.
Proof.
  intros E. unfold calculateSwapOutput, BNOps.div. rewrite E. reflexivity.
Qed.

Lemma quot_slack (k n : Z) :
  0 <= k -> 0 < n -> n * Z.quot k n <= k < n * (Z.quot k n + 1).
Proof.
  intros Hk Hn. rewrite quot_floor by assumption.
  apply floor_slack. assumption.
Qed.

Lemma assert_amount (a : BN) :
  0 <= a -> Throws.assert (ZERO <=? a) = Some tt.
Proof.
  intros Ha. unfold ZERO.
  destruct (Z.leb_spec 0 a) as [_ | L]; [reflexivity | lia].
Qed.

Lemma calculatePrice_value (b q p : BN) :
  b <> 0 ->
  calculatePrice b q p =
  Some (Z.quot (Z.quot (q * MARK_PRICE_PRECISION * p) PEG_PRECISION) b).
Proof.
  intros Hb. pose proof PEG_PRECISION_pos as HP.
  unfold calculatePrice, ZERO.
  destruct (Z.leb_spec (Z.abs b) 0) as [L | _]; [lia |].
  rewrite div_Some by lia. cbn [Throws.bind]. apply div_Some. assumption.
Qed.

(** Closing the pool's position moves the base reserve by the signed
    [netBaseAssetAmount], whichever way the position points. *)
Lemma close_moves_base (amm : AMM) :
  newInputAssetReserve (baseAssetReserve amm)
    (Z.abs (netBaseAssetAmount amm))
    (getSwapDirection base (directionToClose amm))
  = baseAssetReserve amm + netBaseAssetAmount amm.
Proof.
  unfold directionToClose, ZERO.
  destruct (Z.gtb_spec (netBaseAssetAmount amm) 0); simpl; lia.
Qed.

Lemma close_unfold (amm : AMM) :
  calculateAmmReservesAfterSwap amm base (Z.abs (netBaseAssetAmount amm))
    (getSwapDirection base (directionToClose amm))
  = '(b, q) <- calculateSwapOutput (baseAssetReserve amm)
                 (Z.abs (netBaseAssetAmount amm))
                 (getSwapDirection base (directionToClose amm))
                 (sqrtK amm * sqrtK amm) ;;
    Some (q, b).
Proof.
  unfold calculateAmmReservesAfterSwap.
  rewrite assert_amount by lia. reflexivity.
Qed.

Lemma close_value (amm : AMM) :
  baseAssetReserve amm + netBaseAssetAmount amm <> 0 ->
  calculateAmmReservesAfterSwap amm base (Z.abs (netBaseAssetAmount amm))
    (getSwapDirection base (directionToClose amm))
  = Some (Z.quot (sqrtK amm * sqrtK amm)
            (baseAssetReserve amm + netBaseAssetAmount amm),
          baseAssetReserve amm + netBaseAssetAmount amm).
Proof.
  intros H. rewrite close_unfold.
  rewrite calculateSwapOutput_value by (rewrite close_moves_base; exact H).
  rewrite close_moves_base. reflexivity.
Qed.

Lemma close_none (amm : AMM) :
  baseAssetReserve amm + netBaseAssetAmount amm = 0 ->
  calculateAmmReservesAfterSwap amm base (Z.abs (netBaseAssetAmount amm))
    (getSwapDirection base (directionToClose amm))
  = None.
Proof.
  intros H. rewrite close_unfold.
  rewrite calculateSwapOutput_zero; [reflexivity |].
  rewrite close_moves_base. exact H.
Qed.

Lemma calculateTerminalPrice_value (amm : AMM) :
  baseAssetReserve amm + netBaseAssetAmount amm <> 0 ->
  calculateTerminalPrice amm
  = calculatePrice (baseAssetReserve amm + netBaseAssetAmount amm)
      (Z.quot (sqrtK amm * sqrtK amm)
         (baseAssetReserve amm + netBaseAssetAmount amm))
      (pegMultiplier amm).
Proof.
  intros H. pose proof PEG_PRECISION_pos as HP.
  unfold calculateTerminalPrice. rewrite close_value by assumption.
  cbn [Throws.bind]. rewrite calculatePrice_value by assumption.
  rewrite div_Some by lia. cbn [Throws.bind].
  apply div_Some. assumption.
Qed.

(** X1: [calculateSwapOutput] throws exactly when the swap empties (or exactly
    cancels) the input reserve, whatever the invariant. *)
Theorem calculateSwapOutput_throws_iff (i a : BN) (d : SwapDirection)
    (k : BN) :
  calculateSwapOutput i a d k = None <-> newInputAssetReserve i a d = 0.
Proof.
  split.
  - intros H. destruct (Z.eq_dec (newInputAssetReserve i a d) 0) as [E | N];
      [exact E |].
    rewrite calculateSwapOutput_value in H by assumption. discriminate.
  - apply calculateSwapOutput_zero.
Qed.

(** X2: [calculateAmmReservesAfterSwap] rejects a negative swap amount for
    either asset and either direction, before looking at the reserves. *)
Theorem calculateAmmReservesAfterSwap_negative_amount (amm : AMM)
    (t : AssetType) (a : BN) (d : SwapDirection) :
  a < 0 -> calculateAmmReservesAfterSwap amm t a d = None.
Proof.
  intros Ha. unfold calculateAmmReservesAfterSwap, ZERO.
  destruct (Z.leb_spec 0 a) as [L | _]; [lia | reflexivity].
Qed.

(** X3: A swap of base asset returns the quote reserve first; the base reserve
    moves by the amount and the quote reserve is rebuilt from [sqrtK]:
    their product is at most [sqrtK * sqrtK] and misses it by less than the
    new base reserve. *)
Theorem calculateAmmReservesAfterSwap_base (amm : AMM) (a : BN)
    (d : SwapDirection) :
  0 <= a ->
  0 < newInputAssetReserve (baseAssetReserve amm) a d ->
  exists newQuote,
    calculateAmmReservesAfterSwap amm base a d
    = Some (newQuote, newInputAssetReserve (baseAssetReserve amm) a d) /\
    newInputAssetReserve (baseAssetReserve amm) a d * newQuote
    <= sqrtK amm * sqrtK amm
    < newInputAssetReserve (baseAssetReserve amm) a d * (newQuote + 1).
Proof.
  intros Ha Hn.
  exists (Z.quot (sqrtK amm * sqrtK amm)
            (newInputAssetReserve (baseAssetReserve amm) a d)).
  split.
  - unfold calculateAmmReservesAfterSwap.
    rewrite assert_amount by assumption. cbn [Throws.bind].
    rewrite calculateSwapOutput_value by lia. reflexivity.
  - apply quot_slack; [nia | assumption].
Qed.

(** X4: A swap of quote asset first converts the amount to reserve precision,
    [amount * AMM_TIMES_PEG_TO_QUOTE_PRECISION_RATIO / pegMultiplier]
    (truncated), then moves the quote reserve by it and rebuilds the base
    reserve from [sqrtK], with the same slack. *)
Theorem calculateAmmReservesAfterSwap_quote (amm : AMM) (a : BN)
    (d : SwapDirection) :
  0 <= a ->
  pegMultiplier amm <> 0 ->
  let scaled :=
    Z.quot (a * AMM_TIMES_PEG_TO_QUOTE_PRECISION_RATIO) (pegMultiplier amm) in
  0 < newInputAssetReserve (quoteAssetReserve amm) scaled d ->
  exists newBase,
    calculateAmmReservesAfterSwap amm quote a d
    = Some (newInputAssetReserve (quoteAssetReserve amm) scaled d, newBase) /\
    newInputAssetReserve (quoteAssetReserve amm) scaled d * newBase
    <= sqrtK amm * sqrtK amm
    < newInputAssetReserve (quoteAssetReserve amm) scaled d * (newBase + 1).
Proof.
  intros Ha Hp scaled Hn.
  exists (Z.quot (sqrtK amm * sqrtK amm)
            (newInputAssetReserve (quoteAssetReserve amm) scaled d)).
  split.
  - unfold calculateAmmReservesAfterSwap.
    rewrite assert_amount by assumption. cbn [Throws.bind].
    rewrite div_Some by assumption. cbn [Throws.bind].
    fold scaled. rewrite calculateSwapOutput_value by lia. reflexivity.
  - apply quot_slack; [nia | assumption].
Qed.

(** X5: With a peg of 0 a swap of quote asset throws. *)
Theorem calculateAmmReservesAfterSwap_quote_zero_peg (amm : AMM) (a : BN)
    (d : SwapDirection) :
  pegMultiplier amm = 0 -> calculateAmmReservesAfterSwap amm quote a d = None.
Proof.
  intros Hp. unfold calculateAmmReservesAfterSwap.
  destruct (Throws.assert (ZERO <=? a)); [| reflexivity].
  cbn [Throws.bind]. unfold BNOps.div. rewrite Hp. reflexivity.
Qed.

(** X6: The reserves after closing the position: base reserve plus net
    position, and the quote reserve rebuilt from [sqrtK] there; the close
    throws exactly when the position cancels the base reserve. *)
Theorem closing_reserves (amm : AMM) :
  let terminalBase := baseAssetReserve amm + netBaseAssetAmount amm in
  (terminalBase <> 0 ->
   calculateAmmReservesAfterSwap amm base (Z.abs (netBaseAssetAmount amm))
     (getSwapDirection base (directionToClose amm))
   = Some (Z.quot (sqrtK amm * sqrtK amm) terminalBase, terminalBase)) /\
  (terminalBase = 0 ->
   calculateAmmReservesAfterSwap amm base (Z.abs (netBaseAssetAmount amm))
     (getSwapDirection base (directionToClose amm))
   = None).
Proof.
  intros terminalBase. split; [apply close_value | apply close_none].
Qed.

(** X7: [calculateTerminalPrice] is [calculatePrice] at the reserves after
    closing the position, except that it throws where the closed base
    reserve is 0 and [calculatePrice] would answer 0. *)
Theorem calculateTerminalPrice_spec (amm : AMM) :
  let terminalBase := baseAssetReserve amm + netBaseAssetAmount amm in
  (terminalBase <> 0 ->
   calculateTerminalPrice amm
   = calculatePrice terminalBase
       (Z.quot (sqrtK amm * sqrtK amm) terminalBase) (pegMultiplier amm)) /\
  (terminalBase = 0 ->
   calculateTerminalPrice amm = None /\
   forall q, calculatePrice terminalBase q (pegMultiplier amm) = Some 0).
Proof.
  intros terminalBase. split; intros H.
  - apply calculateTerminalPrice_value. assumption.
  - split.
    + unfold calculateTerminalPrice. rewrite close_none by assumption.
      reflexivity.
    + intros q. rewrite H. reflexivity.
Qed.

(** X8: On a pool without a position whose quote reserve is the one rebuilt
    from [sqrtK], the terminal price is the mark price. *)
Theorem calculateTerminalPrice_flat (amm : AMM) :
  netBaseAssetAmount amm = 0 ->
  baseAssetReserve amm <> 0 ->
  quoteAssetReserve amm
  = Z.quot (sqrtK amm * sqrtK amm) (baseAssetReserve amm) ->
  calculateTerminalPrice amm = markPriceOf amm.
Proof.
  intros Hn Hb Hq.
  rewrite calculateTerminalPrice_value by (rewrite Hn; lia).
  rewrite Hn, Z.add_0_r. unfold markPriceOf. rewrite <- Hq. reflexivity.
Qed.

(** X9: [calculateQuoteAssetAmountSwapped] never throws; it truncates
    [reserves * peg / AMM_TIMES_PEG_TO_QUOTE_PRECISION_RATIO] when adding
    and returns one more when removing, so that for a non-negative product
    the added amount is at most the exact quotient and the removed amount is
    strictly above it, also when the division is exact. *)
Theorem calculateQuoteAssetAmountSwapped_rounding (q p : BN) :
  exists added,
    calculateQuoteAssetAmountSwapped q p ADD = Some added /\
    calculateQuoteAssetAmountSwapped q p REMOVE = Some (added + 1) /\
    (0 <= q * p ->
     added * AMM_TIMES_PEG_TO_QUOTE_PRECISION_RATIO <= q * p
     < (added + 1) * AMM_TIMES_PEG_TO_QUOTE_PRECISION_RATIO).
Proof.
  pose proof AMM_TIMES_PEG_TO_QUOTE_PRECISION_RATIO_pos as HR.
  exists (Z.quot (q * p) AMM_TIMES_PEG_TO_QUOTE_PRECISION_RATIO).
  unfold calculateQuoteAssetAmountSwapped.
  rewrite div_Some by lia. cbn [Throws.bind]. unfold ONE.
  repeat split; intros; rewrite quot_floor by lia;
    pose proof (floor_slack (q * p) _ HR); lia.
Qed.

End SwapSimulator.

(** X10: Turning the position or changing the asset turns the swap direction. *)
Theorem getSwapDirection_flips :
  (forall t : AssetType, getSwapDirection t LONG <> getSwapDirection t SHORT)
  /\ (forall p : PositionDirection,
        getSwapDirection base p <> getSwapDirection quote p).
Proof. split; intros []; discriminate. Qed.

Lemma calculateAmmReservesAfterSwap_negative_amount_witness :
  calculateAmmReservesAfterSwap balanced base (-1) ADD = None.
Proof.
  apply (calculateAmmReservesAfterSwap_negative_amount (C := ProtocolConstants)
           balanced base (-1) ADD).
  lia.
Defined.

Lemma calculateAmmReservesAfterSwap_base_witness :
  exists newQuote,
    calculateAmmReservesAfterSwap netLong base (10 ^ 7) ADD
    = Some (newQuote, 10 ^ 16 + 10 ^ 7).
Proof.
  destruct (calculateAmmReservesAfterSwap_base (C := ProtocolConstants)
              netLong (10 ^ 7) ADD) as (o & E & _);
    [lia | reflexivity |].
  exists o. exact E.
Defined.

Lemma calculateAmmReservesAfterSwap_quote_witness :
  exists newBase,
    calculateAmmReservesAfterSwap balanced quote 1000000 ADD
    = Some (10 ^ 13 + 10 ^ 13, newBase).
Proof.
  destruct (calculateAmmReservesAfterSwap_quote (C := ProtocolConstants)
              balanced 1000000 ADD) as (o & E & _);
    [lia | discriminate | reflexivity |].
  exists o. exact E.
Defined.

Lemma calculateAmmReservesAfterSwap_quote_zero_peg_witness :
  calculateAmmReservesAfterSwap (with_pegMultiplier 0 balanced) quote 5 ADD
  = None.
Proof.
  apply (calculateAmmReservesAfterSwap_quote_zero_peg (C := ProtocolConstants)).
  reflexivity.
Defined.

Lemma closing_reserves_witness :
  calculateAmmReservesAfterSwap netLong base (Z.abs (netBaseAssetAmount netLong))
    (getSwapDirection base (directionToClose netLong))
  = Some (Z.quot (sqrtK netLong * sqrtK netLong) (10 ^ 16 + 10 ^ 7),
          10 ^ 16 + 10 ^ 7).
Proof.
  apply (proj1 (closing_reserves (C := ProtocolConstants) netLong)).
  discriminate.
Defined.

Lemma calculateTerminalPrice_spec_witness :
  calculateTerminalPrice netLong
  = calculatePrice (10 ^ 16 + 10 ^ 7)
      (Z.quot (sqrtK netLong * sqrtK netLong) (10 ^ 16 + 10 ^ 7)) 1000.
Proof.
  apply (proj1 (calculateTerminalPrice_spec (C := ProtocolConstants) netLong)).
  discriminate.
Defined.

Lemma calculateTerminalPrice_flat_witness :
  calculateTerminalPrice balanced = Some (10 ^ 10).
Proof.
  rewrite (calculateTerminalPrice_flat (C := ProtocolConstants) balanced);
    [reflexivity | reflexivity | discriminate | reflexivity].
Defined.

Lemma calculateQuoteAssetAmountSwapped_rounding_witness :
  calculateQuoteAssetAmountSwapped (2 * 10 ^ 7) 1000 ADD = Some 2 /\
  calculateQuoteAssetAmountSwapped (2 * 10 ^ 7) 1000 REMOVE = Some 3.
Proof.
  destruct (calculateQuoteAssetAmountSwapped_rounding (C := ProtocolConstants)
              (2 * 10 ^ 7) 1000) as (x & E1 & E2 & _).
  assert (x = 2) as -> by (vm_compute in E1; congruence).
  split; assumption.
Defined.

(** * Further properties of the repeg decision and the state update *)

Section RepegDecision.

Context {C : NumericConstants} {R : RepegPrimitives}.

(** The fields [scaleK] does not write. *)
Lemma scaleK_frame (amm amm' : AMM) (n d : BN) :
  scaleK amm n d = Some amm' ->
  pegMultiplier amm' = pegMultiplier amm /\
  netBaseAssetAmount amm' = netBaseAssetAmount amm /\
  terminalQuoteAssetReserve amm' = terminalQuoteAssetReserve amm /\
  totalExchangeFee amm' = totalExchangeFee amm /\
  totalFeeMinusDistributions amm' = totalFeeMinusDistributions amm /\
  baseSpread amm' = baseSpread amm /\
  curveUpdateIntensity amm' = curveUpdateIntensity amm /\
  quoteAssetAmountLong amm' = quoteAssetAmountLong amm /\
  quoteAssetAmountShort amm' = quoteAssetAmountShort amm.
Proof.
  unfold scaleK. intros H.
  inv_bind H. inv_bind H. inv_bind H.
  injection H as <-. simpl. repeat split; reflexivity.
Qed.

(** A close of the position [n] on a state [x], read backwards. *)
Lemma close_inv (x : AMM) (n q b : BN) :
  calculateAmmReservesAfterSwap x base (Z.abs n)
    (getSwapDirection base (if n >? ZERO then SHORT else LONG))
  = Some (q, b) ->
  b = baseAssetReserve x + n /\ b <> 0 /\
  q = Z.quot (sqrtK x * sqrtK x) b.
Proof.
  unfold calculateAmmReservesAfterSwap. intros H.
  inv_bind H. unfold calculateSwapOutput in H.
  inv_bind H. destruct x1 as [b' q']. inv_bind E0.
  injection E0 as <- <-. injection H as <- <-.
  apply div_inv in E1 as [Hn ->].
  assert (Eb : newInputAssetReserve (baseAssetReserve x) (Z.abs n)
                 (getSwapDirection base (if n >? ZERO then SHORT else LONG))
               = baseAssetReserve x + n).
  { unfold ZERO. destruct (Z.gtb_spec n 0); simpl; lia. }
  rewrite Eb in *. split; [reflexivity | split; [assumption | reflexivity]].
Qed.

(** What a returned state of [calculateUpdatedAMM] is made of, when the
    update is switched on. *)
Lemma calculateUpdatedAMM_inv (amm : AMM) (o : OraclePriceData) (amm' : AMM) :
  (curveUpdateIntensity amm =? 0)%float = false ->
  calculateUpdatedAMM amm o = Some amm' ->
  exists cost n d peg scaled,
    calculateNewAmm amm o = Some (cost, n, d, peg) /\
    scaleK amm n d = Some scaled /\
    baseAssetReserve scaled + netBaseAssetAmount amm <> 0 /\
    amm' =
    with_totalFeeMinusDistributions (totalFeeMinusDistributions amm - cost)
      (with_terminalQuoteAssetReserve
         (Z.quot (sqrtK scaled * sqrtK scaled)
            (baseAssetReserve scaled + netBaseAssetAmount amm))
         (with_pegMultiplier peg scaled)).
Proof.
  intros Hcui H. unfold calculateUpdatedAMM in H. rewrite Hcui in H.
  inv_bind H. destruct x as [[[cost n] d] peg].
  inv_bind H. inv_bind H. destruct x0 as [nq nb].
  injection H as <-.
  apply close_inv in E1 as (Eb & Hb & Eq). simpl in Eb, Hb, Eq.
  destruct (scaleK_frame amm x n d E0) as (_ & _ & _ & _ & Ef & _).
  exists cost, n, d, peg, x.
  repeat split; try assumption.
  - rewrite <- Eb. assumption.
  - simpl. rewrite Ef, Eq, Eb. reflexivity.
Qed.

(** X11: [calculateNewAmm] keeps the depth (ratio 1/1, the candidate peg and its
    cost) exactly when that cost is within the budget, and otherwise
    answers with the ratio 999/1000; it returns no other ratio. *)
Theorem calculateNewAmm_depth_by_budget (amm : AMM) (o : OraclePriceData)
    (cost n d peg : BN) :
  calculateNewAmm amm o = Some (cost, n, d, peg) ->
  exists p0 c0,
    targetPeg amm o = Some p0 /\
    calculateRepegCost amm p0 = Some c0 /\
    ((c0 <= budget amm /\ cost = c0 /\ n = 1 /\ d = 1 /\ peg = p0) \/
     (budget amm < c0 /\ n = 999 /\ d = 1000)).
Proof.
  unfold calculateNewAmm. intros H.
  inv_bind H. inv_bind H. exists x, x0.
  split; [assumption | split; [assumption |]].
  destruct (Z.gtb_spec x0 (budget amm)) as [G | L].
  - right. inv_bind H. inv_bind H. inv_bind H. inv_bind H.
    destruct x4 as [nq nb]. inv_bind H. inv_bind H.
    injection H as <- <- <- <-. repeat split; [lia | reflexivity ..].
  - left. injection H as <- <- <- <-. repeat split; [lia | reflexivity ..].
Qed.

(** X12: Over budget, a depth change that costs instead of freeing fees is
    refused: [calculateNewAmm] throws on its assertion. *)
Theorem calculateNewAmm_asserts_surplus (amm : AMM) (o : OraclePriceData)
    (p0 c0 deficit : BN) :
  targetPeg amm o = Some p0 ->
  calculateRepegCost amm p0 = Some c0 ->
  budget amm < c0 ->
  calculateAdjustKCost amm 999 1000 = Some deficit ->
  0 < deficit ->
  calculateNewAmm amm o = None.
Proof.
  intros Hp Hc Hb Hk Hd. unfold calculateNewAmm.
  rewrite Hp. cbn [Throws.bind]. rewrite Hc. cbn [Throws.bind].
  destruct (Z.gtb_spec c0 (budget amm)) as [_ | L]; [| lia].
  rewrite Hk. cbn [Throws.bind].
  destruct (Z.leb_spec deficit 0) as [L | _]; [lia | reflexivity].
Qed.

(** The budget is never negative, and it is 0 for every pool whose retained
    fees are at most half of the fees collected. *)
Theorem budget_floor (amm : AMM) :
  0 <= budget amm /\
  (totalFeeMinusDistributions amm <= Z.quot (totalExchangeFee amm) 2 ->
   budget amm = 0).
Proof. unfold budget, ZERO. split; intros; lia. Qed.

(** X13: [calculateUpdatedAMM] writes the reserves, the peg, the terminal quote
    reserve and the retained fees only: the position, the collected fees,
    the spread settings and the cost bases of a returned state are those of
    the input. *)
Theorem calculateUpdatedAMM_frame (amm : AMM) (o : OraclePriceData)
    (amm' : AMM) :
  calculateUpdatedAMM amm o = Some amm' ->
  netBaseAssetAmount amm' = netBaseAssetAmount amm /\
  totalExchangeFee amm' = totalExchangeFee amm /\
  baseSpread amm' = baseSpread amm /\
  curveUpdateIntensity amm' = curveUpdateIntensity amm /\
  quoteAssetAmountLong amm' = quoteAssetAmountLong amm /\
  quoteAssetAmountShort amm' = quoteAssetAmountShort amm.
Proof.
  intros H.
  destruct (curveUpdateIntensity amm =? 0)%float eqn:Hcui.
  - unfold calculateUpdatedAMM in H. rewrite Hcui in H.
    injection H as <-. repeat split; reflexivity.
  - apply calculateUpdatedAMM_inv in H
      as (cost & n & d & peg & x & _ & Es & _ & ->); [| assumption].
    destruct (scaleK_frame amm x n d Es)
      as (_ & E1 & _ & E2 & _ & E3 & E4 & E5 & E6).
    simpl. repeat split; assumption.
Qed.

(** X14: In a returned state of a switched-on update, the terminal quote reserve
    is the one of closing the position on the new reserves,
    [sqrtK^2 / (baseAssetReserve + netBaseAssetAmount)], the peg is the one
    [calculateNewAmm] chose and the retained fees are lowered by its
    cost. *)
Theorem calculateUpdatedAMM_terminal (amm : AMM) (o : OraclePriceData)
    (amm' : AMM) :
  (curveUpdateIntensity amm =? 0)%float = false ->
  calculateUpdatedAMM amm o = Some amm' ->
  baseAssetReserve amm' + netBaseAssetAmount amm' <> 0 /\
  terminalQuoteAssetReserve amm' =
    Z.quot (sqrtK amm' * sqrtK amm')
      (baseAssetReserve amm' + netBaseAssetAmount amm') /\
  exists cost n d,
    calculateNewAmm amm o = Some (cost, n, d, pegMultiplier amm') /\
    totalFeeMinusDistributions amm' = totalFeeMinusDistributions amm - cost.
Proof.
  intros Hcui H.
  apply calculateUpdatedAMM_inv in H
    as (cost & n & d & peg & x & En & Es & Hb & ->); [| assumption].
  destruct (scaleK_frame amm x n d Es) as (_ & E1 & _).
  simpl. rewrite E1.
  split; [assumption | split; [reflexivity |]].
  exists cost, n, d. split; [assumption | reflexivity].
Qed.

(** X15: The update never deepens the pool: on non-negative reserves the base
    reserve and [sqrtK] of a returned state are at most those of the
    input, and still non-negative. *)
Theorem calculateUpdatedAMM_never_deepens (amm : AMM) (o : OraclePriceData)
    (amm' : AMM) :
  0 <= baseAssetReserve amm -> 0 <= sqrtK amm ->
  calculateUpdatedAMM amm o = Some amm' ->
  0 <= baseAssetReserve amm' <= baseAssetReserve amm /\
  0 <= sqrtK amm' <= sqrtK amm.
Proof.
  intros Hb Hk H.
  destruct (curveUpdateIntensity amm =? 0)%float eqn:Hcui.
  - unfold calculateUpdatedAMM in H. rewrite Hcui in H.
    injection H as <-. lia.
  - apply calculateUpdatedAMM_inv in H
      as (cost & n & d & peg & x & En & Es & _ & ->); [| assumption].
    apply calculateNewAmm_ratio in En.
    apply scaleK_inv in Es as (Eb & Ek & _). simpl. rewrite Eb, Ek.
    assert (Q : forall v, 0 <= v -> 0 <= Z.quot (v * 999) 1000 <= v).
    { intros v Hv. rewrite quot_floor by lia.
      split; [apply Z.div_pos; lia |].
      apply Z.div_le_upper_bound; lia. }
    destruct En as [[-> ->] | [-> ->]].
    + rewrite !Z.mul_1_r, !Z.quot_1_r. lia.
    + split; apply Q; assumption.
Qed.

End RepegDecision.

Lemma calculateNewAmm_depth_by_budget_witness :
  calculateNewAmm netLong oracleAbove = Some (0, 999, 1000, 1000) /\
  exists p0 c0,
    targetPeg netLong oracleAbove = Some p0 /\
    calculateRepegCost netLong p0 = Some c0 /\
    budget netLong < c0.
Proof.
  split; [reflexivity |].
  destruct (calculateNewAmm_depth_by_budget (C := ProtocolConstants)
              (R := SamplePrimitives) netLong oracleAbove 0 999 1000 1000
              eq_refl) as (p0 & c0 & Hp & Hc & [(_ & _ & F & _) | (Hb & _)]);
    [discriminate F |].
  exists p0, c0. repeat split; assumption.
Defined.

Lemma calculateNewAmm_asserts_surplus_witness :
  calculateNewAmm (R := costlyDepth) netLong oracleAbove = None.
Proof.
  apply (calculateNewAmm_asserts_surplus (C := ProtocolConstants)
           (R := costlyDepth) netLong oracleAbove 1010 10 1);
    [reflexivity | reflexivity | reflexivity | reflexivity | lia].
Defined.

Lemma calculateUpdatedAMM_frame_witness :
  exists amm',
    calculateUpdatedAMM netLong oracleAbove = Some amm' /\
    netBaseAssetAmount amm' = netBaseAssetAmount netLong /\
    totalExchangeFee amm' = totalExchangeFee netLong /\
    baseSpread amm' = baseSpread netLong /\
    curveUpdateIntensity amm' = curveUpdateIntensity netLong /\
    quoteAssetAmountLong amm' = quoteAssetAmountLong netLong /\
    quoteAssetAmountShort amm' = quoteAssetAmountShort netLong.
Proof.
  eexists. split; [vm_compute; reflexivity |].
  eapply (calculateUpdatedAMM_frame (C := ProtocolConstants)
            (R := SamplePrimitives) netLong oracleAbove).
  vm_compute. reflexivity.
Defined.

Lemma calculateUpdatedAMM_terminal_witness :
  exists amm',
    calculateUpdatedAMM netLong oracleAbove = Some amm' /\
    terminalQuoteAssetReserve amm' =
      Z.quot (sqrtK amm' * sqrtK amm')
        (baseAssetReserve amm' + netBaseAssetAmount amm').
Proof.
  eexists. split; [vm_compute; reflexivity |].
  eapply (calculateUpdatedAMM_terminal (C := ProtocolConstants)
            (R := SamplePrimitives) netLong oracleAbove);
    [reflexivity | vm_compute; reflexivity].
Defined.

Lemma calculateUpdatedAMM_never_deepens_witness :
  exists amm',
    calculateUpdatedAMM netLong oracleAbove = Some amm' /\
    0 <= baseAssetReserve amm' <= 10 ^ 16 /\
    0 <= sqrtK amm' <= 10 ^ 16 - 5 * 10 ^ 7.
Proof.
  eexists. split; [vm_compute; reflexivity |].
  apply (calculateUpdatedAMM_never_deepens (C := ProtocolConstants)
           (R := SamplePrimitives) netLong oracleAbove);
    [discriminate | discriminate | vm_compute; reflexivity].
Defined.

(** * Further properties of the spreads and of the quoting functions *)

Section Quoting.

Context {C : NumericConstants} {R : RepegPrimitives}.

Lemma quot_nonneg (a b : Z) : 0 <= a -> 0 < b -> 0 <= Z.quot a b.
Proof. intros Ha Hb. apply Z.quot_pos; assumption. Qed.

Lemma quot_nonpos (a b : Z) : a <= 0 -> 0 < b -> Z.quot a b <= 0.
Proof.
  intros Ha Hb. replace a with (- (- a)) by lia.
  rewrite Z.quot_opp_l by lia.
  pose proof (Z.quot_pos (- a) b ltac:(lia) Hb). lia.
Qed.

Lemma calculateUpdatedAMM_baseSpread (amm : AMM) (o : OraclePriceData)
    (amm' : AMM) :
  calculateUpdatedAMM amm o = Some amm' -> baseSpread amm' = baseSpread amm.
Proof.
  intros H.
  destruct (curveUpdateIntensity amm =? 0)%float eqn:Hcui.
  - unfold calculateUpdatedAMM in H. rewrite Hcui in H.
    injection H as <-. reflexivity.
  - apply calculateUpdatedAMM_inv in H
      as (cost & n & d & peg & x & _ & Es & _ & ->); [| assumption].
    destruct (scaleK_frame amm x n d Es) as (_ & _ & _ & _ & _ & E & _).
    exact E.
Qed.

Lemma calculateSpreadReserves_zero (amm : AMM) (direction : PositionDirection)
    (o : option OraclePriceData) :
  baseSpread amm = 0%float ->
  calculateSpreadReserves amm direction o
  = Some (baseAssetReserve amm, quoteAssetReserve amm).
Proof.
  intros H. unfold calculateSpreadReserves, calculateSpread.
  rewrite H. reflexivity.
Qed.

(** X16: With a base spread of 0 the quoted reserves are the pool's own, for
    either side and whatever the oracle says (also where the mark price is
    0 and a spread computation would divide by it). *)
Theorem calculateSpreadReserves_no_spread (amm : AMM)
    (direction : PositionDirection) (o : option OraclePriceData) :
  baseSpread amm = 0%float ->
  calculateSpreadReserves amm direction o
  = Some (baseAssetReserve amm, quoteAssetReserve amm).
Proof. apply calculateSpreadReserves_zero. Qed.

(** X17: With the update switched off, a base spread of 1, 2 or 3 makes
    [calculateSpreadReserves] throw on either side: the half-spread is
    below 2, [new BN(spread / 2)] is 0 and the spread precision is divided
    by it. *)
Theorem calculateSpreadReserves_thin_spread_throws (amm : AMM)
    (direction : PositionDirection) (o : option OraclePriceData) :
  curveUpdateIntensity amm = 0%float ->
  baseSpread amm = 1%float \/ baseSpread amm = 2%float
  \/ baseSpread amm = 3%float ->
  calculateSpreadReserves amm direction o = None.
Proof.
  intros Hcui Hbs. unfold calculateSpreadReserves, calculateSpread.
  rewrite Hcui.
  destruct Hbs as [-> | [-> | ->]]; reflexivity.
Qed.

(** X18: With a base spread of 0, bid and ask are both the mark price of the
    updated state. *)
Theorem calculateBidAskPrice_no_spread (amm : AMM) (o : OraclePriceData)
    (newAmm : AMM) (p : BN) :
  baseSpread amm = 0%float ->
  calculateUpdatedAMM amm o = Some newAmm ->
  markPriceOf newAmm = Some p ->
  calculateBidAskPrice amm o = Some (p, p).
Proof.
  intros Hbs Hu Hp. unfold calculateBidAskPrice.
  rewrite Hu. cbn [Throws.bind].
  assert (Hbs' : baseSpread newAmm = 0%float)
    by (rewrite (calculateUpdatedAMM_baseSpread amm o newAmm Hu); exact Hbs).
  rewrite !calculateSpreadReserves_zero by assumption.
  cbn [Throws.bind]. unfold markPriceOf in Hp. rewrite Hp. reflexivity.
Qed.

(** X19: With a base spread of 0, [calculateUpdatedAMMSpreadReserves] returns
    the reserves, [sqrtK] and peg of the updated state itself, for either
    side. *)
Theorem calculateUpdatedAMMSpreadReserves_no_spread (amm : AMM)
    (direction : PositionDirection) (o : OraclePriceData) (newAmm : AMM) :
  baseSpread amm = 0%float ->
  calculateUpdatedAMM amm o = Some newAmm ->
  calculateUpdatedAMMSpreadReserves amm direction o
  = Some (baseAssetReserve newAmm, quoteAssetReserve newAmm, sqrtK newAmm,
          pegMultiplier newAmm).
Proof.
  intros Hbs Hu. unfold calculateUpdatedAMMSpreadReserves.
  rewrite Hu. cbn [Throws.bind].
  rewrite calculateSpreadReserves_zero; [reflexivity |].
  rewrite (calculateUpdatedAMM_baseSpread amm o newAmm Hu). exact Hbs.
Qed.

(** X20: [calculateMaxBaseAssetAmountToTrade] throws on a limit price of 0; a
    returned size is never negative, is positive whenever the direction is
    SHORT, and the size 0 only comes with LONG. *)
Theorem calculateMaxBaseAssetAmountToTrade_size (amm : AMM)
    (direction : PositionDirection) (o : option OraclePriceData) :
  calculateMaxBaseAssetAmountToTrade amm 0 direction o = None /\
  forall (limit_price size : BN) (d : PositionDirection),
    calculateMaxBaseAssetAmountToTrade amm limit_price direction o
    = Some (size, d) ->
    0 <= size /\ (d = SHORT -> 0 < size) /\ (size = 0 -> d = LONG).
Proof.
  split; [reflexivity |].
  intros limit_price size d H.
  unfold calculateMaxBaseAssetAmountToTrade in H.
  inv_bind H. inv_bind H. inv_bind H. destruct x1 as [b q].
  destruct (Z.gtb_spec (squareRootBN x0) b) as [G | L].
  - injection H as <- <-. repeat split; intros; try lia; try discriminate.
  - destruct (Z.ltb_spec (squareRootBN x0) b) as [G | L'];
      injection H as <- <-; repeat split; intros;
      try lia; try discriminate; reflexivity.
Qed.

(** X21: The side that neither faces the oracle nor adds to the pool's position
    is quoted at the plain [baseSpread / 2], as long as the retained fees
    are not 0: LONG with the target price at or below a positive mark price
    and no net long position, SHORT with the target at or above the mark and
    no net short position. *)
Theorem calculateSpread_quiet_side (amm : AMM) (direction : PositionDirection)
    (o : option OraclePriceData) (m : BN) :
  (baseSpread amm =? 0)%float = false ->
  (curveUpdateIntensity amm =? 0)%float = false ->
  markPriceOf amm = Some m -> 0 < m ->
  totalFeeMinusDistributions amm <> 0 ->
  match direction with
  | LONG => targetPriceOf o m <= m /\ netBaseAssetAmount amm <= 0
  | SHORT => m <= targetPriceOf o m /\ 0 <= netBaseAssetAmount amm
  end ->
  calculateSpread amm direction o = Some (baseSpread amm / 2)%float.
Proof.
  intros Hbs Hcui Hm Hpos Hf Hside.
  pose proof BID_ASK_SPREAD_PRECISION_pos as HB.
  unfold calculateSpread. rewrite Hbs, Hcui. cbn [orb].
  unfold spreadBeforeSkew. rewrite Hm. cbn [Throws.bind].
  unfold targetMarkSpreadPct. rewrite div_Some by lia. cbn [Throws.bind].
  unfold oracleRetreat, inventorySkew, ZERO.
  destruct (Z.eqb_spec (totalFeeMinusDistributions amm) 0) as [E | _];
    [contradiction |].
  destruct direction; destruct Hside as [Ht Hn]; cbn [isLong isShort andb orb].
  - assert (Hx : 0 <= (m - targetPriceOf o m) * BID_ASK_SPREAD_PRECISION)
      by (apply Z.mul_nonneg_nonneg; lia).
    pose proof (quot_nonneg _ m Hx Hpos).
    destruct (Z.ltb_spec (Z.quot ((m - targetPriceOf o m)
                                  * BID_ASK_SPREAD_PRECISION) m) 0); [lia |].
    cbn [Throws.bind orb].
    destruct (Z.gtb_spec (netBaseAssetAmount amm) 0); [lia |].
    rewrite !andb_false_r. reflexivity.
  - assert (Hx : (m - targetPriceOf o m) * BID_ASK_SPREAD_PRECISION <= 0)
      by (apply Z.mul_nonpos_nonneg; lia).
    pose proof (quot_nonpos _ m Hx Hpos).
    destruct (Z.gtb_spec (Z.quot ((m - targetPriceOf o m)
                                  * BID_ASK_SPREAD_PRECISION) m) 0); [lia |].
    cbn [Throws.bind orb].
    destruct (Z.ltb_spec (netBaseAssetAmount amm) 0); [lia |].
    rewrite !andb_false_r. reflexivity.
Qed.


(** X24: On a pool in deficit or without retained fees [calculateSpreadBN]
    multiplies both half-spreads by 5, whatever the position and without the
    cap. *)
Theorem calculateSpreadBN_deficit (baseSpread : number)
    (pct conf q tq peg nba mark fees : BN) (long short : number) :
  fees <= 0 ->
  oracleRetreatBN baseSpread pct conf = Some (long, short) ->
  calculateSpreadBN baseSpread pct conf q tq peg nba mark fees =
  Some (long * 5, short * 5)%float.
Proof.
  intros Hf Hpre. unfold calculateSpreadBN. rewrite Hpre.
  cbn [Throws.bind]. unfold inventorySkewBN, ZERO.
  rewrite netBaseAssetValue_value, localBaseAssetValue_value,
    maxTargetSpread_value.
  cbn [Throws.bind].
  destruct (Z.gtb_spec fees 0) as [G | _]; [lia | reflexivity].
Qed.

(** X25: With retained fees [calculateSpreadBN] skews one side only: the long
    side when the pool is net long, and otherwise, a flat pool included, the
    short side; the other half-spread is returned as the oracle retreat
    left it. *)
Theorem calculateSpreadBN_one_side_skewed (baseSpread : number)
    (pct conf q tq peg nba mark fees : BN)
    (long short long' short' : number) :
  0 < fees ->
  oracleRetreatBN baseSpread pct conf = Some (long, short) ->
  calculateSpreadBN baseSpread pct conf q tq peg nba mark fees
  = Some (long', short') ->
  (0 < nba -> short' = short) /\ (nba <= 0 -> long' = long).
Proof.
  intros Hf Hpre H. unfold calculateSpreadBN in H. rewrite Hpre in H.
  cbn [Throws.bind] in H. unfold inventorySkewBN, ZERO in H.
  rewrite netBaseAssetValue_value, localBaseAssetValue_value,
    maxTargetSpread_value in H.
  cbn [Throws.bind] in H.
  destruct (Z.gtb_spec fees 0) as [_ | L]; [| lia].
  inv_bind H. inv_bind H. inv_bind H.
  destruct (Z.gtb_spec nba 0) as [G | L];
    injection H as <- <-; split; intros; try lia; reflexivity.
Qed.

End Quoting.

Lemma calculateSpreadReserves_no_spread_witness :
  calculateSpreadReserves noSpread SHORT (Some oracleAtZero)
  = Some (10 ^ 13, 10 ^ 13).
Proof.
  apply (calculateSpreadReserves_no_spread (C := ProtocolConstants)
           noSpread SHORT (Some oracleAtZero)).
  reflexivity.
Defined.

Lemma calculateSpreadReserves_thin_spread_throws_witness :
  calculateSpread thinSpread LONG None = Some 1%float /\
  calculateSpreadReserves thinSpread LONG None = None.
Proof.
  split; [reflexivity |].
  apply (calculateSpreadReserves_thin_spread_throws (C := ProtocolConstants)
           thinSpread LONG None);
    [reflexivity | right; left; reflexivity].
Defined.

Lemma calculateBidAskPrice_no_spread_witness :
  calculateBidAskPrice noSpread oracleAtMark = Some (10 ^ 10, 10 ^ 10).
Proof.
  eapply (calculateBidAskPrice_no_spread (C := ProtocolConstants)
            (R := SamplePrimitives) noSpread oracleAtMark);
    [reflexivity | vm_compute; reflexivity | vm_compute; reflexivity].
Defined.

Lemma calculateUpdatedAMMSpreadReserves_no_spread_witness :
  exists newAmm,
    calculateUpdatedAMM noSpread oracleAtMark = Some newAmm /\
    calculateUpdatedAMMSpreadReserves noSpread LONG oracleAtMark
    = Some (baseAssetReserve newAmm, quoteAssetReserve newAmm, sqrtK newAmm,
            pegMultiplier newAmm).
Proof.
  eexists. split; [vm_compute; reflexivity |].
  apply (calculateUpdatedAMMSpreadReserves_no_spread (C := ProtocolConstants)
           (R := SamplePrimitives) noSpread LONG oracleAtMark);
    [reflexivity | vm_compute; reflexivity].
Defined.

Lemma calculateMaxBaseAssetAmountToTrade_size_witness :
  0 <= 47128722744 /\ (LONG = SHORT -> 0 < 47128722744)
  /\ (47128722744 = 0 -> LONG = LONG).
Proof.
  apply (proj2 (calculateMaxBaseAssetAmountToTrade_size
                  (C := ProtocolConstants) balanced LONG None)
           (10 ^ 10 + 10 ^ 8) 47128722744 LONG).
  vm_compute. reflexivity.
Defined.

Lemma calculateSpread_quiet_side_witness :
  calculateSpread netLong SHORT (Some oracleAbove) = Some 500%float.
Proof.
  apply (calculateSpread_quiet_side (C := ProtocolConstants)
           netLong SHORT (Some oracleAbove) 9999999900);
    [reflexivity | reflexivity | reflexivity | lia | discriminate |].
  split; simpl; lia.
Defined.


Lemma calculateSpreadBN_deficit_witness :
  calculateSpreadBN 10000%float 0 0 (10 ^ 13) (10 ^ 13) 1000 (10 ^ 9)
    (10 ^ 10) (-5)
  = Some (25000, 25000)%float.
Proof.
  rewrite (calculateSpreadBN_deficit (C := ProtocolConstants) 10000%float
             0 0 (10 ^ 13) (10 ^ 13) 1000 (10 ^ 9) (10 ^ 10) (-5)
             5000%float 5000%float);
    [reflexivity | lia | reflexivity].
Defined.

Lemma calculateSpreadBN_one_side_skewed_witness :
  exists long' short',
    calculateSpreadBN 1000%float 2500 300 (10 ^ 13) (10 ^ 13) 1000 0
      (10 ^ 10) 7
    = Some (long', short') /\ long' = 500%float.
Proof.
  destruct (calculateSpreadBN 1000%float 2500 300 (10 ^ 13) (10 ^ 13) 1000 0
              (10 ^ 10) 7) as [[l s] |] eqn:E;
    [| vm_compute in E; discriminate].
  exists l, s. split; [reflexivity |].
  apply (proj2 (calculateSpreadBN_one_side_skewed (C := ProtocolConstants)
                  1000%float 2500 300 (10 ^ 13) (10 ^ 13) 1000 0 (10 ^ 10) 7
                  500%float 2800%float l s ltac:(lia) eq_refl E)).
  lia.
Defined.

